(** * ROHC compressor: the UDP profile (c_udp.c) and the Uncompressed
      profile (c_uncompressed.c)

    A shallow embedding of the two compression profiles and the proofs of
    the properties their specification states about them.

    Conventions.
    - C integers are [Z]; where the C type wraps, the wrap is written out.
    - A byte buffer reached through a pointer is a [list Z] of octets whose
      length is the size of the object; a position is a [Z].  Reading or
      writing outside the object is undefined in C: [load] and [store]
      return [None] there and the functions that use them live in the
      [option] monad.
    - A function that mutates an object through a pointer returns the new
      value of the object next to its C return value. *)

From Stdlib Require Import ZArith Lia Bool.
From stdpp Require Import base option list.

Local Open Scope Z_scope.

(** ** Byte buffers *)

Module Buffer.

(** [buf[i]] as an rvalue. *)
Definition load (buf : list Z) (i : Z) : option Z :=
  if decide (0 ≤ i) then buf !! Z.to_nat i else None.

(** [buf[i] = v]. *)
Definition store (buf : list Z) (i v : Z) : option (list Z) :=
  if decide (0 ≤ i < Z.of_nat (length buf))
  then Some (<[Z.to_nat i := v]> buf) else None.

End Buffer.

(** ** The UDP profile (c_udp.c) *)

Module Udp.
Import Buffer.

(** A 16-bit field of a header in network byte order, as the two octets
    it occupies in memory.  The code only compares such a field with zero
    and copies its two octets. *)
Definition uint16_t : Type := Z * Z.

(** [x != 0] on a 16-bit field. *)
Definition nonzero (x : uint16_t) : bool :=
  negb ((x.1 =? 0) && (x.2 =? 0)).

(** [struct udphdr] of protocols/udp.h. *)
Record udphdr := mk_udphdr {
  source : uint16_t;
  dest : uint16_t;
  len : uint16_t;
  check : uint16_t
}.

Inductive rohc_comp_state_t :=
| ROHC_COMP_STATE_IR
| ROHC_COMP_STATE_FO
| ROHC_COMP_STATE_SO.

(** The packet types of rohc_packets.h that the specification names. *)
Inductive rohc_packet_t :=
| ROHC_PACKET_IR
| ROHC_PACKET_IR_DYN
| ROHC_PACKET_UO_0
| ROHC_PACKET_UO_1
| ROHC_PACKET_UOR_2
| ROHC_PACKET_UNKNOWN.

Global Instance rohc_packet_t_eq_dec : EqDecision rohc_packet_t.
Proof. solve_decision. Defined.

Global Instance rohc_comp_state_t_eq_dec : EqDecision rohc_comp_state_t.
Proof. solve_decision. Defined.

Record udp_tmp_vars := mk_udp_tmp_vars {
  send_udp_dynamic : Z
}.

Record sc_udp_context := mk_sc_udp_context {
  udp_checksum_change_count : Z;
  old_udp : udphdr;
  tmp : udp_tmp_vars
}.

(** The fields of [struct rohc_comp] this file reads. *)
Record rohc_comp := mk_rohc_comp {
  oa_repetitions_nr : Z
}.

(** The uncompressed headers handed to the profile: the protocol number
    announced by the innermost IP header, the UDP header ([NULL] is
    [None]) and the IP headers, which this file never inspects. *)
Record rohc_pkt_hdrs := mk_rohc_pkt_hdrs {
  innermost_ip_hdr_next_proto : Z;
  udp : option udphdr;
  ip_hdrs : list Z
}.

(** Modelled from the spec: the macro [ROHC_IPPROTO_UDP] of the protocol
    headers, which are not part of the sources at hand.  The specification
    names the protocol, UDP, whose number in an IP header is 17; the value
    only matters to the first assertion of [c_udp_encode]. *)
Definition ROHC_IPPROTO_UDP : Z := 17.

(** What an encode call leaves behind: the context, the ROHC packet
    buffer, [*packet_type] and the returned length. *)
Record encode_result (C : Type) := mk_encode_result {
  ctxt_out : C;
  rohc_pkt_out : list Z;
  packet_type_out : rohc_packet_t;
  size_out : Z
}.
Global Arguments mk_encode_result {_} _ _ _ _.
Global Arguments ctxt_out {_} _.
Global Arguments rohc_pkt_out {_} _.
Global Arguments packet_type_out {_} _.
Global Arguments size_out {_} _.

Section Profile.

(** The generic RFC 3095 part of the context (SN, W-LSB windows, IP header
    trackers), owned by rohc_comp_rfc3095.c. *)
Variable rfc3095_generic : Type.

Record rohc_comp_rfc3095_ctxt := mk_rohc_comp_rfc3095_ctxt {
  generic : rfc3095_generic;
  rfc3095_specific : sc_udp_context
}.

Record rohc_comp_ctxt := mk_rohc_comp_ctxt {
  compressor : rohc_comp;
  specific : rohc_comp_rfc3095_ctxt
}.

(** The UDP part of a context, and its replacement. *)
Definition udp_context (context : rohc_comp_ctxt) : sc_udp_context :=
  rfc3095_specific (specific context).

Definition with_udp_context (context : rohc_comp_ctxt) (u : sc_udp_context)
  : rohc_comp_ctxt :=
  mk_rohc_comp_ctxt (compressor context)
    (mk_rohc_comp_rfc3095_ctxt (generic (specific context)) u).

(** The generic engine of rohc_comp_rfc3095.c, which this file calls. *)
Variable rohc_comp_rfc3095_decide_state : rohc_comp_ctxt → rohc_comp_state_t.
Variable rohc_comp_rfc3095_encode :
  rohc_comp_ctxt → rohc_pkt_hdrs → Z * Z → list Z → Z →
  encode_result rohc_comp_ctxt.

(** [udp_changed_udp_dynamic]: the return value and the context it leaves. *)
Definition udp_changed_udp_dynamic (context : rohc_comp_ctxt) (udp : udphdr)
  : Z * rohc_comp_ctxt :=
  let oa_repetitions_nr := oa_repetitions_nr (compressor context) in
  let udp_context := udp_context context in
  if (nonzero (check udp) && negb (nonzero (check (old_udp udp_context))))
     || (negb (nonzero (check udp)) && nonzero (check (old_udp udp_context)))
     || (udp_checksum_change_count udp_context <? oa_repetitions_nr)
  then
    if (nonzero (check udp) && negb (nonzero (check (old_udp udp_context))))
       || (negb (nonzero (check udp)) && nonzero (check (old_udp udp_context)))
    then
      (1, with_udp_context context
            (mk_sc_udp_context 0 (old_udp udp_context) (tmp udp_context)))
    else (1, context)
  else (0, context).

(** [udp_decide_state]. *)
Definition udp_decide_state (context : rohc_comp_ctxt) : rohc_comp_state_t :=
  if negb (send_udp_dynamic (tmp (udp_context context)) =? 0)
  then ROHC_COMP_STATE_IR
  else rohc_comp_rfc3095_decide_state context.

(** [memcpy(&dest[counter], &field, 2)]. *)
Definition memcpy2 (dest : list Z) (counter : Z) (field : uint16_t)
  : option (list Z) :=
  d ← store dest counter field.1; store d (counter + 1) field.2.

(** [udp_code_uo_remainder]: the buffer it leaves and the new position. *)
Definition udp_code_uo_remainder (context : rohc_comp_ctxt)
    (next_header : udphdr) (dest : list Z) (counter : Z)
  : option (list Z * Z) :=
  let udp := next_header in
  let nr_written := 0 in
  '(dest, nr_written) ←
    (if nonzero (check udp)
     then d ← memcpy2 dest counter (check udp); Some (d, nr_written + 2)
     else Some (dest, nr_written));
  Some (dest, counter + nr_written).

(** [udp_code_static_udp_part]. *)
Definition udp_code_static_udp_part (context : rohc_comp_ctxt)
    (next_header : udphdr) (dest : list Z) (counter : Z)
  : option (list Z * Z) :=
  let udp := next_header in
  let nr_written := 0 in
  dest ← memcpy2 dest (counter + nr_written) (source udp);
  let nr_written := nr_written + 2 in
  dest ← memcpy2 dest (counter + nr_written) (Udp.dest udp);
  let nr_written := nr_written + 2 in
  Some (dest, counter + nr_written).

(** [udp_code_dynamic_udp_part]; [udp_checksum_change_count] is a [size_t]
    and wraps at [2^64]. *)
Definition udp_code_dynamic_udp_part (context : rohc_comp_ctxt)
    (next_header : udphdr) (dest : list Z) (counter : Z)
  : option (rohc_comp_ctxt * list Z * Z) :=
  let udp_context := udp_context context in
  let udp := next_header in
  let nr_written := 0 in
  dest ← memcpy2 dest (counter + nr_written) (check udp);
  let nr_written := nr_written + 2 in
  let context := with_udp_context context
    (mk_sc_udp_context
       ((udp_checksum_change_count udp_context + 1) mod 2 ^ 64)
       (old_udp udp_context) (tmp udp_context)) in
  Some (context, dest, counter + nr_written).

(** The first statement of [c_udp_encode]:
    [udp_context->tmp.send_udp_dynamic =
       udp_changed_udp_dynamic(context, uncomp_pkt_hdrs->udp)]. *)
Definition c_udp_encode_detect (context : rohc_comp_ctxt) (udp : udphdr)
  : rohc_comp_ctxt :=
  let '(changed, context) := udp_changed_udp_dynamic context udp in
  with_udp_context context
    (mk_sc_udp_context (udp_checksum_change_count (udp_context context))
       (old_udp (udp_context context)) (mk_udp_tmp_vars changed)).

(** [c_udp_encode].  The two assertions make the call abort ([None]) when
    they fail. *)
Definition c_udp_encode (context : rohc_comp_ctxt)
    (uncomp_pkt_hdrs : rohc_pkt_hdrs) (uncomp_pkt_time : Z * Z)
    (rohc_pkt : list Z) (rohc_pkt_max_len : Z)
  : option (encode_result rohc_comp_ctxt) :=
  if negb (innermost_ip_hdr_next_proto uncomp_pkt_hdrs =? ROHC_IPPROTO_UDP)
  then None else
  hdr ← udp uncomp_pkt_hdrs;
  (* how many UDP fields changed? *)
  let context := c_udp_encode_detect context hdr in
  (* encode the IP packet *)
  let r := rohc_comp_rfc3095_encode context uncomp_pkt_hdrs uncomp_pkt_time
             rohc_pkt rohc_pkt_max_len in
  if size_out r <? 0 then Some r else
  (* update the context with the new UDP header *)
  if decide (packet_type_out r = ROHC_PACKET_IR
             ∨ packet_type_out r = ROHC_PACKET_IR_DYN)
  then
    let context := ctxt_out r in
    Some (mk_encode_result
            (with_udp_context context
               (mk_sc_udp_context
                  (udp_checksum_change_count (udp_context context))
                  hdr (tmp (udp_context context))))
            (rohc_pkt_out r) (packet_type_out r) (size_out r))
  else Some r.

(** [rohc_comp_rfc3095_create] of rohc_comp_rfc3095.c: the generic part it
    builds, or [None] when it fails; the random callback of the
    compressor; and the writes of [c_udp_create] into the generic part
    (the SN, [next_header_len] and the profile callbacks). *)
Variable rohc_comp_rfc3095_create :
  rohc_comp → rohc_pkt_hdrs → option rfc3095_generic.
Variable random_cb : rohc_comp → Z.
Variable udp_init_generic : rfc3095_generic → Z → rfc3095_generic.

(** [c_udp_create] for a context of the compressor [comp].  [malloc_ok]
    tells whether the allocation of the UDP part succeeds.  The result is
    [None] when an assertion fails, [Some None] when the function returns
    false (the generic part, if any, is destroyed) and the initialised
    context when it returns true. *)
Definition c_udp_create (malloc_ok : bool) (comp : rohc_comp)
    (uncomp_pkt_hdrs : rohc_pkt_hdrs) : option (option rohc_comp_ctxt) :=
  if negb (innermost_ip_hdr_next_proto uncomp_pkt_hdrs =? ROHC_IPPROTO_UDP)
  then None else
  hdr ← udp uncomp_pkt_hdrs;
  (* create and initialize the generic part of the profile context *)
  match rohc_comp_rfc3095_create comp uncomp_pkt_hdrs with
  | None => Some None
  | Some rfc3095_ctxt =>
      (* initialize SN to a random value (RFC 3095, 5.11.1) *)
      let sn := Z.land (random_cb comp) 0xffff in
      (* create the UDP part of the profile context *)
      if malloc_ok then
        Some (Some
          (mk_rohc_comp_ctxt comp
             (mk_rohc_comp_rfc3095_ctxt (udp_init_generic rfc3095_ctxt sn)
                (mk_sc_udp_context 0 hdr (mk_udp_tmp_vars (-1))))))
      else Some None
  end.

End Profile.

Global Arguments c_udp_create {_} _ _ _ _ _ _.
Global Arguments generic {_} _.
Global Arguments rfc3095_specific {_} _.
Global Arguments compressor {_} _.
Global Arguments specific {_} _.
Global Arguments mk_rohc_comp_rfc3095_ctxt {_} _ _.
Global Arguments mk_rohc_comp_ctxt {_} _ _.
Global Arguments udp_context {_} _.
Global Arguments with_udp_context {_} _ _.
Global Arguments udp_changed_udp_dynamic {_} _ _.
Global Arguments udp_decide_state {_} _ _.
Global Arguments udp_code_uo_remainder {_} _ _ _ _.
Global Arguments udp_code_static_udp_part {_} _ _ _ _.
Global Arguments udp_code_dynamic_udp_part {_} _ _ _ _.
Global Arguments c_udp_encode_detect {_} _ _.
Global Arguments c_udp_encode {_} _ _ _ _ _ _.

(** A generic engine that finds the output buffer too small: it returns
    -1 and touches neither the context nor the buffer.  It stands for
    [rohc_comp_rfc3095_encode] where a failing call is evaluated. *)
Definition encode_buffer_too_small {G : Type} (context : rohc_comp_ctxt G)
    (hdrs : rohc_pkt_hdrs) (time : Z * Z) (rohc_pkt : list Z) (max_len : Z)
  : encode_result (rohc_comp_ctxt G) :=
  mk_encode_result context rohc_pkt ROHC_PACKET_UNKNOWN (-1).

(** A generic engine that emits a packet of a fixed type and length and
    touches neither the context nor the buffer.  It stands for
    [rohc_comp_rfc3095_encode] where a successful call is evaluated. *)
Definition encode_fixed {G : Type} (packet_type : rohc_packet_t) (size : Z)
    (context : rohc_comp_ctxt G) (hdrs : rohc_pkt_hdrs) (time : Z * Z)
    (rohc_pkt : list Z) (max_len : Z)
  : encode_result (rohc_comp_ctxt G) :=
  mk_encode_result context rohc_pkt packet_type size.

(** Concrete headers and contexts used to run the code. *)
Definition hdr_with_check (c : uint16_t) : udphdr :=
  mk_udphdr (0x04, 0xd2) (0x16, 0x2e) (0x00, 0x1c) c.

Definition pkt_with_check (c : uint16_t) : rohc_pkt_hdrs :=
  mk_rohc_pkt_hdrs ROHC_IPPROTO_UDP (Some (hdr_with_check c)) [].

Definition udp_ctxt_with (oa count : Z) (ref : uint16_t) (send : Z)
  : rohc_comp_ctxt unit :=
  mk_rohc_comp_ctxt (mk_rohc_comp oa)
    (mk_rohc_comp_rfc3095_ctxt ()
       (mk_sc_udp_context count (hdr_with_check ref) (mk_udp_tmp_vars send))).

End Udp.

(** ** The Uncompressed profile (c_uncompressed.c) *)

Module Uncompressed.
Import Buffer.

(** [rohc_c_state]. *)
Inductive rohc_c_state := IR | FO | SO.

Global Instance rohc_c_state_eq_dec : EqDecision rohc_c_state.
Proof. solve_decision. Defined.

(** The packet types this profile reports. *)
Inductive rohc_packet_t := PACKET_IR | PACKET_NORMAL | PACKET_UNKNOWN.

Global Instance rohc_packet_t_eq_dec : EqDecision rohc_packet_t.
Proof. solve_decision. Defined.

(** The acknowledgement type the framework decodes from a FEEDBACK-2. *)
Inductive ack_type := ACK | NACK | STATIC_NACK | RESERVED.

Inductive rohc_cid_type_t := ROHC_LARGE_CID | ROHC_SMALL_CID.

Record sc_uncompressed_context := mk_sc_uncompressed_context {
  ir_count : Z;
  normal_count : Z;
  go_back_ir_count : Z
}.

(** The fields of [struct rohc_comp] this file reads. *)
Record rohc_comp := mk_rohc_comp {
  medium_cid_type : rohc_cid_type_t;
  periodic_refreshes_ir_timeout : Z
}.

(** The fields of [struct c_context] this file reads or writes.  A mode is
    kept as the integer of the [rohc_mode] enumeration, because the
    feedback handler stores the two mode bits of the packet in it. *)
Record c_context := mk_c_context {
  cid : Z;
  compressor : rohc_comp;
  state : rohc_c_state;
  mode : Z;
  specific : sc_uncompressed_context
}.

(** [struct c_feedback].  [data] holds the [size] octets of the feedback
    packet, so [feedback->size] is [length data]; the handler reaches them
    through a pointer to non-const octets. *)
Record c_feedback := mk_c_feedback {
  type : Z;
  data : list Z;
  specific_offset : Z;
  specific_size : Z;
  acktype : ack_type
}.

(** What an encode call leaves behind: the context, the buffer under
    build, [*packet_type], [*payload_offset] and the returned length. *)
Record encode_result := mk_encode_result {
  ctxt_out : c_context;
  dest_out : list Z;
  packet_type_out : rohc_packet_t;
  payload_offset_out : Z;
  size_out : Z
}.

(** Modelled from the spec: the macro [ROHC_PROFILE_UNCOMPRESSED] of
    rohc.h, which is not part of the sources at hand.  The specification
    (profile byte 0x00) and the packet diagram above
    [uncompressed_code_IR_packet] (Profile = 0) give its value. *)
Definition ROHC_PROFILE_UNCOMPRESSED : Z := 0.

(** A C [int] that overflows is undefined; the counters below wrap the way
    two's complement machines do. *)
Definition int_wrap (z : Z) : Z := (z + 2 ^ 31) mod 2 ^ 32 - 2 ^ 31.

(** Replace the state, or the profile counters, of a context. *)
Definition set_state (context : c_context) (s : rohc_c_state) : c_context :=
  mk_c_context (cid context) (compressor context) s (mode context)
    (specific context).

Definition set_mode (context : c_context) (m : Z) : c_context :=
  mk_c_context (cid context) (compressor context) (state context) m
    (specific context).

Definition set_specific (context : c_context) (u : sc_uncompressed_context)
  : c_context :=
  mk_c_context (cid context) (compressor context) (state context)
    (mode context) u.

(** [uncompressed_change_state]. *)
Definition uncompressed_change_state (context : c_context)
    (new_state : rohc_c_state) : c_context :=
  let uncomp_context := specific context in
  (* reset counters only if different state *)
  if decide (state context ≠ new_state) then
    set_state
      (set_specific context
         (mk_sc_uncompressed_context 0 0 (go_back_ir_count uncomp_context)))
      new_state
  else context.

(** [uncompressed_change_mode]. *)
Definition uncompressed_change_mode (context : c_context) (new_mode : Z)
  : c_context :=
  if decide (mode context ≠ new_mode) then
    uncompressed_change_state (set_mode context new_mode) IR
  else context.

(** [uncompressed_periodic_down_transition]. *)
Definition uncompressed_periodic_down_transition (context : c_context)
  : c_context :=
  let context :=
    if go_back_ir_count (specific context)
       >=? periodic_refreshes_ir_timeout (compressor context)
    then
      uncompressed_change_state
        (set_specific context
           (mk_sc_uncompressed_context (ir_count (specific context))
              (normal_count (specific context)) 0))
        IR
    else context in
  if decide (state context = FO) then
    set_specific context
      (mk_sc_uncompressed_context (ir_count (specific context))
         (normal_count (specific context))
         (int_wrap (go_back_ir_count (specific context) + 1)))
  else context.

(** [c_uncompressed_create]: the returned flag and the context.
    [malloc_ok] tells whether the allocation of the profile part
    succeeds. *)
Definition c_uncompressed_create (malloc_ok : bool) (context : c_context)
    (ip : list Z) : Z * c_context :=
  if malloc_ok then
    (1, set_specific context (mk_sc_uncompressed_context 0 0 0))
  else (0, context).

(** [c_uncompressed_check_context]. *)
Definition c_uncompressed_check_context (context : c_context)
    (ip : list Z) : Z := 1.

Section Profile.

(** The macros [MAX_IR_COUNT] of rohc_comp_internals.h and [U_MODE] of
    rohc.h. *)
Variable MAX_IR_COUNT : Z.
Variable U_MODE : Z.

(** [crc_calculate(CRC_TYPE_8, buf, len, CRC_INIT_8, crc_table_8)] of
    crc.c, as a function of the [len] octets it reads. *)
Variable crc_calculate : list Z → Z.

(** [code_cid_values] of cid.c: from the CID type, the CID, the buffer and
    its size to the returned position, [*first_position] and the buffer it
    leaves. *)
Variable code_cid_values :
  rohc_cid_type_t → Z → list Z → Z → option (Z * Z * list Z).

(** [uncompressed_decide_state]. *)
Definition uncompressed_decide_state (context : c_context) : c_context :=
  let context :=
    if bool_decide (state context = IR)
       && (ir_count (specific context) >=? MAX_IR_COUNT)
    then uncompressed_change_state context FO
    else context in
  if mode context =? U_MODE
  then uncompressed_periodic_down_transition context
  else context.

(** [uncompressed_code_IR_packet]: the returned position, the buffer and
    [*payload_offset]. *)
Definition uncompressed_code_IR_packet (context : c_context) (ip : list Z)
    (dest : list Z) (dest_size : Z) : option (Z * list Z * Z) :=
  (* parts 1 and 3 *)
  '(counter, first_position, dest) ←
    code_cid_values (medium_cid_type (compressor context)) (cid context)
      dest dest_size;
  (* part 2 *)
  dest ← store dest first_position 0xfc;
  (* part 4 *)
  dest ← store dest counter ROHC_PROFILE_UNCOMPRESSED;
  let counter := counter + 1 in
  (* part 5 *)
  dest ← store dest counter 0;
  dest ← store dest counter
           (crc_calculate (take (Z.to_nat (counter + 1)) dest) mod 256);
  let counter := counter + 1 in
  Some (counter, dest, 0).

(** [uncompressed_code_normal_packet]; [ip] is the raw data of the IP
    packet. *)
Definition uncompressed_code_normal_packet (context : c_context)
    (ip : list Z) (dest : list Z) (dest_size : Z)
  : option (Z * list Z * Z) :=
  '(counter, first_position, dest) ←
    code_cid_values (medium_cid_type (compressor context)) (cid context)
      dest dest_size;
  (* part 2 *)
  b ← load ip 0;
  dest ← store dest first_position b;
  Some (counter, dest, 1).

(** [uncompressed_code_packet].  [payload_offset] is the value
    [*payload_offset] holds on entry; it is left alone in an unknown
    state. *)
Definition uncompressed_code_packet (context : c_context) (ip : list Z)
    (dest : list Z) (payload_offset : Z) (dest_size : Z)
  : option encode_result :=
  let uncomp_context := specific context in
  match state context with
  | IR =>
      let context := set_specific context
        (mk_sc_uncompressed_context (int_wrap (ir_count uncomp_context + 1))
           (normal_count uncomp_context) (go_back_ir_count uncomp_context)) in
      '(size, dest, payload_offset) ←
        uncompressed_code_IR_packet context ip dest dest_size;
      Some (mk_encode_result context dest PACKET_IR payload_offset size)
  | FO =>
      let context := set_specific context
        (mk_sc_uncompressed_context (ir_count uncomp_context)
           (int_wrap (normal_count uncomp_context + 1))
           (go_back_ir_count uncomp_context)) in
      '(size, dest, payload_offset) ←
        uncompressed_code_normal_packet context ip dest dest_size;
      Some (mk_encode_result context dest PACKET_NORMAL payload_offset size)
  | SO =>
      Some (mk_encode_result context dest PACKET_UNKNOWN payload_offset (-1))
  end.

(** [c_uncompressed_encode]. *)
Definition c_uncompressed_encode (context : c_context) (ip : list Z)
    (packet_size : Z) (dest : list Z) (dest_size : Z) (payload_offset : Z)
  : option encode_result :=
  (* STEP 1: decide state *)
  let context := uncompressed_decide_state context in
  (* STEP 2: Code packet *)
  uncompressed_code_packet context ip dest payload_offset dest_size.

(** A run of successful [c_uncompressed_encode] calls on one context, for
    whatever packets and buffers: the packet types emitted, in order, and
    the context left. *)
Inductive encode_run : c_context → list rohc_packet_t → c_context → Prop :=
| encode_run_nil context : encode_run context [] context
| encode_run_cons context ip packet_size dest dest_size payload_offset r
    types context' :
    c_uncompressed_encode context ip packet_size dest dest_size
      payload_offset = Some r →
    encode_run (ctxt_out r) types context' →
    encode_run context (packet_type_out r :: types) context'.

(** The option loop of [c_uncompressed_feedback]: [p] is the position of
    the pointer of the same name in [data].  [remaining] goes down by at
    least one per iteration, so [fuel] iterations are enough whenever
    [remaining ≤ fuel]. *)
Fixpoint feedback_options (fuel : nat) (data : list Z) (p remaining : Z)
    (crc_in_packet : Z) (is_crc_used : bool)
  : option (list Z * Z * bool) :=
  if remaining <=? 0 then Some (data, crc_in_packet, is_crc_used) else
  match fuel with
  | O => None
  | S fuel =>
      b ← load data p;
      let opt := Z.shiftr b 4 in
      let optlen := Z.land b 0x0f in
      '(data, crc_in_packet, is_crc_used) ←
        (if opt =? 1 then
           (* CRC *)
           v ← load data (p + 1);
           d ← store data (p + 1) 0; (* set to zero for crc computation *)
           Some (d, v, true)
         else Some (data, crc_in_packet, is_crc_used));
      feedback_options fuel data (p + (1 + optlen))
        (remaining - (1 + optlen)) crc_in_packet is_crc_used
  end.

(** [c_uncompressed_feedback]: the context and the octets of the feedback
    packet it leaves. *)
Definition c_uncompressed_feedback (context : c_context)
    (feedback : c_feedback) : option (c_context * list Z) :=
  let p := specific_offset feedback in
  if type feedback =? 1 then (* ACK *)
    Some (context, data feedback)
  else if type feedback =? 2 then (* FEEDBACK-2 *)
    b ← load (data feedback) p;
    let mode := Z.land (Z.shiftr b 4) 3 in
    let remaining := specific_size feedback - 2 in
    let p := p + 2 in
    (* parse options *)
    '(data, crc_in_packet, is_crc_used) ←
      feedback_options (Z.to_nat remaining) (data feedback) p remaining
        0 false;
    (* check CRC if present in feedback *)
    if is_crc_used && negb (crc_in_packet =? crc_calculate data)
    then Some (context, data) (* ignore feedback in case of bad CRC *)
    else
      (* change mode if present in feedback *)
      let context :=
        if negb (mode =? 0) then
          (* mode can be changed only if feedback is protected by a CRC *)
          if is_crc_used then uncompressed_change_mode context mode
          else context
        else context in
      let context :=
        match acktype feedback with
        | ACK => context
        | NACK => context
        | STATIC_NACK => uncompressed_change_state context IR
        | RESERVED => context
        end in
      Some (context, data)
  else Some (context, data feedback).

End Profile.

(** The specification's reading of the options of a FEEDBACK-2, to be
    compared with the loop of the handler: the payload is followed by
    options, each a header octet (type in the high four bits, length in
    the low four) and its value, and option 1 is the CRC.
    [spec_crc_options] walks the options of the feedback as it was
    received, from the position [p] over [remaining] octets, and lists the
    positions of the headers of the CRC options it carries. *)
Fixpoint spec_crc_options (fuel : nat) (data : list Z) (p remaining : Z)
  : list Z :=
  if remaining <=? 0 then [] else
  match fuel with
  | O => []
  | S fuel =>
      match load data p with
      | None => []
      | Some b =>
          (if Z.shiftr b 4 =? 1 then [p] else [])
          ++ spec_crc_options fuel data (p + (1 + Z.land b 0x0f))
               (remaining - (1 + Z.land b 0x0f))
      end
  end.

(** The feedback with the value octet of each of these CRC options
    zeroed. *)
Definition spec_zero_crc (data : list Z) (positions : list Z) : list Z :=
  foldl (λ d i, <[Z.to_nat (i + 1) := 0]> d) data positions.

(** The CRC options a FEEDBACK-2 carries: its options follow the two
    octets of the acknowledgement in the profile-specific part. *)
Definition feedback2_crc_options (feedback : c_feedback) : list Z :=
  spec_crc_options (Z.to_nat (specific_size feedback - 2))
    (data feedback) (specific_offset feedback + 2)
    (specific_size feedback - 2).

(** The option whose header is at [i] has a value: its length is at least
    one octet. *)
Definition crc_option_has_value (data : list Z) (i : Z) : bool :=
  match load data i with
  | Some o => 1 <=? Z.land o 0x0f
  | None => false
  end.

(** Modelled from the spec: [crc_calculate] of crc.c for the CRC-8, which
    is not part of the sources at hand.  The specification gives the
    polynomial 0xE0 and the initial value 0xFF; the octets are folded in
    one bit at a time, least significant bit first. *)
Fixpoint crc8_bits (n : nat) (crc : Z) : Z :=
  match n with
  | O => crc
  | S n =>
      crc8_bits n
        (if Z.testbit crc 0 then Z.lxor (Z.shiftr crc 1) 0xe0
         else Z.shiftr crc 1)
  end.

Definition crc8 (buf : list Z) : Z :=
  foldl (λ crc b, crc8_bits 8 (Z.lxor crc b)) 0xff buf.

(** Modelled from the spec: [code_cid_values] of cid.c, which is not part
    of the sources at hand.  With small CIDs a non-zero CID is announced
    by an Add-CID octet [1110 CCCC] placed before the first octet of the
    packet; with large CIDs the first octet of the packet comes first and
    the CID follows it as a one- or two-octet variable-length value. *)
Definition code_cid_values (cid_type : rohc_cid_type_t) (cid : Z)
    (dest : list Z) (dest_size : Z) : option (Z * Z * list Z) :=
  match cid_type with
  | ROHC_SMALL_CID =>
      if 0 <? cid then
        dest ← store dest 0 (Z.lor 0xe0 (Z.land cid 0x0f));
        Some (2, 1, dest)
      else Some (1, 0, dest)
  | ROHC_LARGE_CID =>
      if cid <? 128 then
        dest ← store dest 1 cid;
        Some (2, 0, dest)
      else
        dest ← store dest 1 (Z.lor 0x80 (Z.land (Z.shiftr cid 8) 0x3f));
        dest ← store dest 2 (Z.land cid 0xff);
        Some (3, 0, dest)
  end.

(** Concrete contexts used to run the code: periodic IR refreshes every
    1700 packets, no Normal packet sent yet. *)
Definition uncomp_ctxt_with (cid_type : rohc_cid_type_t) (cid : Z)
    (state : rohc_c_state) (mode : Z) (ir_count go_back_ir_count : Z)
  : c_context :=
  mk_c_context cid (mk_rohc_comp cid_type 1700) state mode
    (mk_sc_uncompressed_context ir_count 0 go_back_ir_count).

End Uncompressed.

(** * Proofs *)

(** ** Facts about byte buffers *)

Module BufferFacts.
Import Buffer.

Lemma load_in_range buf i :
  0 ≤ i < Z.of_nat (length buf) → is_Some (load buf i).
Proof.
  intros Hi. unfold load. rewrite decide_True by lia.
  apply lookup_lt_is_Some. lia.
Qed.

Lemma store_in_range buf i v :
  0 ≤ i < Z.of_nat (length buf) →
  store buf i v = Some (<[Z.to_nat i := v]> buf).
Proof. intros Hi. unfold store. by rewrite decide_True. Qed.

Lemma store_Some_inv buf i v buf' :
  store buf i v = Some buf' →
  0 ≤ i < Z.of_nat (length buf) ∧ buf' = <[Z.to_nat i := v]> buf.
Proof. unfold store. case_decide; [|done]. by intros [= <-]. Qed.

Lemma store_length buf i v buf' :
  store buf i v = Some buf' → length buf' = length buf.
Proof. intros [_ ->]%store_Some_inv. apply length_insert. Qed.

Lemma load_store_eq buf i v buf' :
  store buf i v = Some buf' → load buf' i = Some v.
Proof.
  intros [Hi ->]%store_Some_inv. unfold load.
  rewrite decide_True by lia. apply list_lookup_insert_eq. lia.
Qed.

Lemma load_store_ne buf i j v buf' :
  store buf i v = Some buf' → i ≠ j → load buf' j = load buf j.
Proof.
  intros [Hi ->]%store_Some_inv Hne. unfold load.
  case_decide; [|done]. apply list_lookup_insert_ne. lia.
Qed.

Lemma load_store buf i v buf' j :
  store buf i v = Some buf' →
  load buf' j = if decide (j = i) then Some v else load buf j.
Proof.
  intros Hs. case_decide as Hj.
  - subst j. by eapply load_store_eq.
  - eapply load_store_ne; [done|]. congruence.
Qed.

Lemma store_is_Some buf i v :
  is_Some (store buf i v) ↔ 0 ≤ i < Z.of_nat (length buf).
Proof.
  split.
  - intros [buf' Hs]. by apply store_Some_inv in Hs as [? _].
  - intros Hi. rewrite store_in_range by done. done.
Qed.

End BufferFacts.

(** ** The UDP profile *)

Module UdpFacts.
Import Buffer BufferFacts Udp.

Section Facts.

Context {G : Type}.
Variable decide_state : rohc_comp_ctxt G → rohc_comp_state_t.
Variable encode :
  rohc_comp_ctxt G → rohc_pkt_hdrs → Z * Z → list Z → Z →
  encode_result (rohc_comp_ctxt G).

Implicit Types (context : rohc_comp_ctxt G) (udp hdr : udphdr).

(** What change detection returns, as a boolean. *)
Lemma udp_changed_udp_dynamic_fst context udp :
  (udp_changed_udp_dynamic context udp).1 =
    if xorb (nonzero (check udp))
            (nonzero (check (old_udp (udp_context context))))
       || (udp_checksum_change_count (udp_context context)
           <? oa_repetitions_nr (compressor context))
    then 1 else 0.
Proof.
  unfold udp_changed_udp_dynamic.
  destruct (nonzero (check udp)), (nonzero (check (old_udp _))),
    (_ <? _); reflexivity.
Qed.

(** The context change detection leaves. *)
Lemma udp_changed_udp_dynamic_snd context udp :
  (udp_changed_udp_dynamic context udp).2 =
    if xorb (nonzero (check udp))
            (nonzero (check (old_udp (udp_context context))))
    then with_udp_context context
           (mk_sc_udp_context 0 (old_udp (udp_context context))
              (tmp (udp_context context)))
    else context.
Proof.
  unfold udp_changed_udp_dynamic.
  destruct (nonzero (check udp)), (nonzero (check (old_udp _))),
    (_ <? _); reflexivity.
Qed.

Lemma xorb_true_neq (a b : bool) : xorb a b = true ↔ a ≠ b.
Proof. destruct a, b; naive_solver. Qed.

(** The context the generic engine is called with. *)
Lemma c_udp_encode_detect_udp_context context udp :
  udp_context (c_udp_encode_detect context udp) =
    mk_sc_udp_context
      (if xorb (nonzero (check udp))
               (nonzero (check (old_udp (udp_context context))))
       then 0 else udp_checksum_change_count (udp_context context))
      (old_udp (udp_context context))
      (mk_udp_tmp_vars (udp_changed_udp_dynamic context udp).1).
Proof.
  unfold c_udp_encode_detect.
  pose proof (udp_changed_udp_dynamic_snd context udp) as Hsnd.
  destruct (udp_changed_udp_dynamic context udp) as [r c']; simpl in *.
  subst c'. by destruct (xorb _ _).
Qed.

Lemma c_udp_encode_detect_frame context udp :
  compressor (c_udp_encode_detect context udp) = compressor context
  ∧ generic (specific (c_udp_encode_detect context udp))
    = generic (specific context).
Proof.
  unfold c_udp_encode_detect.
  pose proof (udp_changed_udp_dynamic_snd context udp) as Hsnd.
  destruct (udp_changed_udp_dynamic context udp) as [r c']; simpl in *.
  subst c'. by destruct (xorb _ _).
Qed.

(** How [c_udp_encode] is built from the generic engine. *)
Lemma c_udp_encode_Some context hdrs time pkt max_len r :
  c_udp_encode encode context hdrs time pkt max_len = Some r →
  ∃ hdr,
    udp hdrs = Some hdr
    ∧ innermost_ip_hdr_next_proto hdrs = ROHC_IPPROTO_UDP
    ∧ let g := encode (c_udp_encode_detect context hdr) hdrs time pkt
                 max_len in
      size_out r = size_out g
      ∧ packet_type_out r = packet_type_out g
      ∧ rohc_pkt_out r = rohc_pkt_out g
      ∧ (size_out g < 0 → r = g)
      ∧ (0 ≤ size_out g →
         old_udp (udp_context (ctxt_out r)) =
           if decide (packet_type_out g = ROHC_PACKET_IR
                      ∨ packet_type_out g = ROHC_PACKET_IR_DYN)
           then hdr else old_udp (udp_context (ctxt_out g))).
Proof.
  unfold c_udp_encode.
  destruct (innermost_ip_hdr_next_proto hdrs =? ROHC_IPPROTO_UDP) eqn:Hp;
    [|done].
  apply Z.eqb_eq in Hp. simpl.
  destruct (udp hdrs) as [hdr|]; [|done]. simpl.
  intros Hr. exists hdr. split; [done|]. split; [done|].
  destruct (size_out _ <? 0) eqn:Hs.
  - apply Z.ltb_lt in Hs. injection Hr as <-. repeat split; try done. lia.
  - apply Z.ltb_ge in Hs. case_decide; injection Hr as <-; simpl;
      repeat split; try done; lia.
Qed.

(** C1.  Change detection returns 1 exactly when the checksum of the
    packet and the stored one differ in zero-ness or
    [udp_checksum_change_count] is below [oa_repetitions_nr], and 0
    otherwise; the count is reset to 0 exactly when the zero-ness flipped
    and nothing else in the context moves.  Every call of [c_udp_encode]
    for a UDP packet runs it: the call returns, and what it returns is
    what the generic engine makes of the context that change detection
    left with the result stored in [send_udp_dynamic]; on that context
    [udp_decide_state] selects the IR state whenever the flag is set. *)
Theorem udp_checksum_change_forces_ir context udp :
  ((udp_changed_udp_dynamic context udp).1 = 1
   ∨ (udp_changed_udp_dynamic context udp).1 = 0)
  ∧ ((udp_changed_udp_dynamic context udp).1 = 1 ↔
     nonzero (check udp) ≠ nonzero (check (old_udp (udp_context context)))
     ∨ udp_checksum_change_count (udp_context context)
       < oa_repetitions_nr (compressor context))
  ∧ (nonzero (check udp) ≠ nonzero (check (old_udp (udp_context context)))
     ∧ (udp_changed_udp_dynamic context udp).2 =
         with_udp_context context
           (mk_sc_udp_context 0 (old_udp (udp_context context))
              (tmp (udp_context context)))
     ∨ nonzero (check udp) = nonzero (check (old_udp (udp_context context)))
       ∧ (udp_changed_udp_dynamic context udp).2 = context)
  ∧ send_udp_dynamic (tmp (udp_context (c_udp_encode_detect context udp)))
    = (udp_changed_udp_dynamic context udp).1
  ∧ ((udp_changed_udp_dynamic context udp).1 = 1 →
     udp_decide_state decide_state (c_udp_encode_detect context udp)
     = ROHC_COMP_STATE_IR)
  ∧ (∀ c : rohc_comp_ctxt G,
       send_udp_dynamic (tmp (udp_context c)) ≠ 0 →
       udp_decide_state decide_state c = ROHC_COMP_STATE_IR)
  ∧ udp_context (c_udp_encode_detect context udp)
    = mk_sc_udp_context
        (udp_checksum_change_count
           (udp_context (udp_changed_udp_dynamic context udp).2))
        (old_udp (udp_context context))
        (mk_udp_tmp_vars (udp_changed_udp_dynamic context udp).1)
  ∧ compressor (c_udp_encode_detect context udp) = compressor context
  ∧ generic (specific (c_udp_encode_detect context udp))
    = generic (specific context)
  ∧ (∀ hdrs time pkt max_len,
       innermost_ip_hdr_next_proto hdrs = ROHC_IPPROTO_UDP →
       Udp.udp hdrs = Some udp →
       ∃ r,
         c_udp_encode encode context hdrs time pkt max_len = Some r
         ∧ size_out r
           = size_out (encode (c_udp_encode_detect context udp) hdrs time
                         pkt max_len)
         ∧ packet_type_out r
           = packet_type_out (encode (c_udp_encode_detect context udp)
                                hdrs time pkt max_len)
         ∧ rohc_pkt_out r
           = rohc_pkt_out (encode (c_udp_encode_detect context udp) hdrs
                             time pkt max_len)
         ∧ tmp (udp_context (ctxt_out r))
           = tmp (udp_context
                    (ctxt_out (encode (c_udp_encode_detect context udp)
                                 hdrs time pkt max_len)))
         ∧ (size_out r < 0 →
            r = encode (c_udp_encode_detect context udp) hdrs time pkt
                  max_len)).
Proof.
  assert (∀ c : rohc_comp_ctxt G,
            send_udp_dynamic (tmp (udp_context c)) ≠ 0 →
            udp_decide_state decide_state c = ROHC_COMP_STATE_IR) as Hdec.
  { intros c Hc. unfold udp_decide_state.
    by rewrite (proj2 (Z.eqb_neq _ _) Hc). }
  assert (send_udp_dynamic
            (tmp (udp_context (c_udp_encode_detect context udp)))
          = (udp_changed_udp_dynamic context udp).1) as Hsend.
  { by rewrite c_udp_encode_detect_udp_context. }
  split_and!; [| | | done | | done | | | |].
  - rewrite udp_changed_udp_dynamic_fst. destruct (_ || _); auto.
  - rewrite udp_changed_udp_dynamic_fst, <- xorb_true_neq, <- Z.ltb_lt.
    destruct (xorb _ _), (_ <? _); simpl; intuition congruence.
  - rewrite udp_changed_udp_dynamic_snd.
    destruct (nonzero (check udp)), (nonzero (check (old_udp _)));
      simpl; auto.
  - intros H1. apply Hdec. rewrite Hsend, H1. done.
  - rewrite c_udp_encode_detect_udp_context, udp_changed_udp_dynamic_snd.
    by destruct (xorb _ _).
  - apply c_udp_encode_detect_frame.
  - apply c_udp_encode_detect_frame.
  - intros hdrs time pkt max_len Hproto Hudp. unfold c_udp_encode.
    rewrite Hproto, Z.eqb_refl, Hudp. simpl.
    destruct (Z.ltb_spec
                (size_out (encode (c_udp_encode_detect context udp) hdrs
                             time pkt max_len)) 0) as [Hneg|Hpos].
    + eexists. split; [done|]. by split_and!.
    + case_decide; (eexists; split; [done|]); simpl; split_and!;
        done || lia.
Qed.

(** C2, as amended.  When [c_udp_encode] fails it returns what the generic
    engine returned for the context that change detection left; if the
    engine itself leaves the context alone when it fails, then the stored
    UDP header, the generic part and the compressor are those of before
    the call, while [send_udp_dynamic] holds the result of this call's
    change detection and [udp_checksum_change_count] is 0 if the zero-ness
    of the checksum flipped. *)
Theorem c_udp_encode_failure context hdrs time pkt max_len r :
  (∀ c, size_out (encode c hdrs time pkt max_len) < 0 →
        ctxt_out (encode c hdrs time pkt max_len) = c) →
  c_udp_encode encode context hdrs time pkt max_len = Some r →
  size_out r < 0 →
  ∃ hdr,
    udp hdrs = Some hdr
    ∧ r = encode (c_udp_encode_detect context hdr) hdrs time pkt max_len
    ∧ ctxt_out r = c_udp_encode_detect context hdr
    ∧ compressor (ctxt_out r) = compressor context
    ∧ generic (specific (ctxt_out r)) = generic (specific context)
    ∧ old_udp (udp_context (ctxt_out r)) = old_udp (udp_context context)
    ∧ send_udp_dynamic (tmp (udp_context (ctxt_out r)))
      = (udp_changed_udp_dynamic context hdr).1
    ∧ udp_checksum_change_count (udp_context (ctxt_out r))
      = if xorb (nonzero (check hdr))
                (nonzero (check (old_udp (udp_context context))))
        then 0 else udp_checksum_change_count (udp_context context).
Proof.
  intros Hatomic Hr Hneg.
  destruct (c_udp_encode_Some _ _ _ _ _ _ Hr)
    as (hdr & Hudp & _ & Hsize & _ & _ & Hfail & _).
  rewrite Hsize in Hneg. specialize (Hfail Hneg). subst r.
  specialize (Hatomic _ Hneg).
  exists hdr. rewrite Hatomic, c_udp_encode_detect_udp_context. simpl.
  destruct (c_udp_encode_detect_frame context hdr) as [Hc Hg].
  by repeat split.
Qed.

(** Taken alone, [udp_code_uo_remainder] looks at the checksum of the
    header it is given and at nothing in the context. *)
Lemma udp_code_uo_remainder_tests_packet_checksum context hdr
    (dest : list Z) counter :
  0 ≤ counter →
  counter + 2 ≤ Z.of_nat (length dest) →
  udp_code_uo_remainder context hdr dest counter
  = if nonzero (check hdr)
    then Some (<[Z.to_nat (counter + 1) := (check hdr).2]>
                 (<[Z.to_nat counter := (check hdr).1]> dest),
               counter + 2)
    else Some (dest, counter).
Proof.
  intros Hlo Hhi. unfold udp_code_uo_remainder, memcpy2.
  destruct (nonzero (check hdr)); simpl.
  - rewrite store_in_range by lia. simpl.
    rewrite store_in_range by (rewrite length_insert; lia). simpl.
    by rewrite Z.add_0_l.
  - by rewrite Z.add_0_r.
Qed.

(** C3.  A UO packet is built only when [udp_decide_state] did not select
    the IR state for the packet.  Then [udp_code_uo_remainder] appends the
    two octets of the UDP checksum when the checksum stored in the context
    is non-zero, and appends nothing when it is zero. *)
Theorem udp_uo_remainder_iff_reference_checksum context hdr
    (dest : list Z) counter :
  udp_decide_state decide_state (c_udp_encode_detect context hdr)
    ≠ ROHC_COMP_STATE_IR →
  0 ≤ counter →
  counter + 2 ≤ Z.of_nat (length dest) →
  ∃ dest' counter',
    udp_code_uo_remainder (c_udp_encode_detect context hdr) hdr dest counter
      = Some (dest', counter')
    ∧ (nonzero (check (old_udp
                  (udp_context (c_udp_encode_detect context hdr)))) = true
       ∧ counter' = counter + 2
       ∧ dest' = <[Z.to_nat (counter + 1) := (check hdr).2]>
                   (<[Z.to_nat counter := (check hdr).1]> dest)
       ∨ nonzero (check (old_udp
                    (udp_context (c_udp_encode_detect context hdr)))) = false
         ∧ counter' = counter
         ∧ dest' = dest).
Proof.
  intros Hstate Hlo Hhi.
  assert (send_udp_dynamic
            (tmp (udp_context (c_udp_encode_detect context hdr))) = 0)
    as Hsend.
  { unfold udp_decide_state in Hstate.
    destruct (_ =? 0) eqn:He; [by apply Z.eqb_eq in He|done]. }
  rewrite c_udp_encode_detect_udp_context in Hsend |- *. simpl in *.
  rewrite udp_changed_udp_dynamic_fst in Hsend.
  destruct (xorb _ _) eqn:Hx; [done|].
  assert (nonzero (check hdr)
          = nonzero (check (old_udp (udp_context context)))) as Heq.
  { destruct (nonzero (check hdr)), (nonzero (check (old_udp _)));
      simpl in Hx; congruence. }
  rewrite <- Heq.
  rewrite udp_code_uo_remainder_tests_packet_checksum by done.
  destruct (nonzero (check hdr)); eexists _, _; (split; [done|]); auto.
Qed.

(** C10.  The generic engine does not write the stored UDP header.  After
    a successful [c_udp_encode] the stored header is the header of the
    current packet when the packet type is IR or IR-DYN, and the header
    stored before the call for every other packet type. *)
Theorem c_udp_encode_updates_old_udp context hdrs time pkt max_len r :
  (∀ c, old_udp (udp_context (ctxt_out (encode c hdrs time pkt max_len)))
        = old_udp (udp_context c)) →
  c_udp_encode encode context hdrs time pkt max_len = Some r →
  0 ≤ size_out r →
  ∃ hdr,
    udp hdrs = Some hdr
    ∧ (packet_type_out r = ROHC_PACKET_IR
       ∨ packet_type_out r = ROHC_PACKET_IR_DYN →
       old_udp (udp_context (ctxt_out r)) = hdr)
    ∧ (packet_type_out r ≠ ROHC_PACKET_IR →
       packet_type_out r ≠ ROHC_PACKET_IR_DYN →
       old_udp (udp_context (ctxt_out r)) = old_udp (udp_context context)).
Proof.
  intros Hframe Hr Hpos.
  destruct (c_udp_encode_Some _ _ _ _ _ _ Hr)
    as (hdr & Hudp & _ & Hsize & Htype & _ & _ & Hok).
  rewrite Hsize in Hpos. specialize (Hok Hpos).
  rewrite Hframe, c_udp_encode_detect_udp_context in Hok. simpl in Hok.
  rewrite <- Htype in Hok.
  exists hdr. split; [done|]. split.
  - intros Hir. by rewrite Hok, decide_True.
  - intros Hn1 Hn2. rewrite Hok, decide_False; [done|]. by intros [?|?].
Qed.

(** *** The chains of the UDP header *)

(** Undo the stores of a chain builder, first to last. *)
Ltac invert_stores :=
  repeat match goal with
  | H : context [store ?d ?i ?v] |- _ =>
      lazymatch type of H with
      | store d i v = _ => fail
      | _ =>
          let d' := fresh "d" in
          let Hs := fresh "Hs" in
          destruct (store d i v) as [d'|] eqn:Hs; simpl in H; [|done]
      end
  end.

Lemma memcpy2_is_Some (dest : list Z) counter (field : uint16_t) :
  is_Some (memcpy2 dest counter field)
  ↔ 0 ≤ counter ∧ counter + 2 ≤ Z.of_nat (length dest).
Proof.
  unfold memcpy2. split.
  - intros [d Hd].
    destruct (store dest counter field.1) as [d1|] eqn:H1; [|done].
    simpl in Hd. pose proof (store_length _ _ _ _ H1).
    apply store_Some_inv in H1 as [? _].
    apply store_Some_inv in Hd as [? _]. lia.
  - intros [? ?]. rewrite store_in_range by lia. simpl.
    rewrite store_in_range by (rewrite length_insert; lia). done.
Qed.

(** X1.  The static part of the UDP header is built exactly when the four
    octets fit in the buffer; it then holds the source port and the
    destination port, in this order, at the position given, the position
    returned is four further, and no other octet of the buffer moves. *)
Theorem udp_static_part_layout context hdr (dest : list Z) counter :
  (is_Some (udp_code_static_udp_part context hdr dest counter)
   ↔ 0 ≤ counter ∧ counter + 4 ≤ Z.of_nat (length dest))
  ∧ ∀ dest' counter',
      udp_code_static_udp_part context hdr dest counter
        = Some (dest', counter') →
      counter' = counter + 4
      ∧ length dest' = length dest
      ∧ load dest' counter = Some (source hdr).1
      ∧ load dest' (counter + 1) = Some (source hdr).2
      ∧ load dest' (counter + 2) = Some (Udp.dest hdr).1
      ∧ load dest' (counter + 3) = Some (Udp.dest hdr).2
      ∧ ∀ j, j < counter ∨ counter + 4 ≤ j → load dest' j = load dest j.
Proof.
  unfold udp_code_static_udp_part. split.
  - split.
    + intros [[d c] Hrun].
      destruct (memcpy2 dest _ _) as [d1|] eqn:H1; [|done]. simpl in Hrun.
      destruct (memcpy2 d1 _ _) as [d2|] eqn:H2; [|done].
      assert (length d1 = length dest) as Hlen.
      { unfold memcpy2 in H1. invert_stores.
        rewrite (store_length _ _ _ _ H1). by eapply store_length. }
      pose proof (proj1 (memcpy2_is_Some _ _ _) (mk_is_Some _ _ H1)).
      pose proof (proj1 (memcpy2_is_Some _ _ _) (mk_is_Some _ _ H2)).
      lia.
    + intros [? ?]. unfold memcpy2.
      rewrite store_in_range by lia. simpl.
      rewrite store_in_range by (rewrite !length_insert; lia). simpl.
      rewrite store_in_range by (rewrite !length_insert; lia). simpl.
      rewrite store_in_range by (rewrite !length_insert; lia). done.
  - intros dest' counter' Hrun. unfold memcpy2 in Hrun.
    invert_stores. injection Hrun as <- <-.
    rename Hs into H1, Hs0 into H2, Hs1 into H3, Hs2 into H4.
    pose proof (store_length _ _ _ _ H1).
    pose proof (store_length _ _ _ _ H2).
    pose proof (store_length _ _ _ _ H3).
    pose proof (store_length _ _ _ _ H4).
    split_and!; [lia | congruence | ..]; try intros j Hj;
      rewrite (load_store _ _ _ _ _ H4), (load_store _ _ _ _ _ H3),
        (load_store _ _ _ _ _ H2), (load_store _ _ _ _ _ H1);
      repeat case_decide; done || lia.
Qed.

(** X2.  The dynamic part of the UDP header is built exactly when the two
    octets fit in the buffer; it then holds the checksum of the header at
    the position given, the position returned is two further, no other
    octet of the buffer moves, and the context has counted one more
    emission (modulo [2^64]) and is otherwise as before. *)
Theorem udp_dynamic_part_layout context hdr (dest : list Z) counter :
  (is_Some (udp_code_dynamic_udp_part context hdr dest counter)
   ↔ 0 ≤ counter ∧ counter + 2 ≤ Z.of_nat (length dest))
  ∧ ∀ context' dest' counter',
      udp_code_dynamic_udp_part context hdr dest counter
        = Some (context', dest', counter') →
      counter' = counter + 2
      ∧ length dest' = length dest
      ∧ load dest' counter = Some (check hdr).1
      ∧ load dest' (counter + 1) = Some (check hdr).2
      ∧ (∀ j, j < counter ∨ counter + 2 ≤ j → load dest' j = load dest j)
      ∧ udp_checksum_change_count (udp_context context')
        = (udp_checksum_change_count (udp_context context) + 1) mod 2 ^ 64
      ∧ old_udp (udp_context context') = old_udp (udp_context context)
      ∧ tmp (udp_context context') = tmp (udp_context context)
      ∧ compressor context' = compressor context
      ∧ generic (specific context') = generic (specific context).
Proof.
  unfold udp_code_dynamic_udp_part. split.
  - rewrite <- (memcpy2_is_Some dest counter (check hdr)).
    rewrite Z.add_0_r. destruct (memcpy2 dest counter (check hdr)); simpl.
    + split; intros _; done.
    + split; intros [? ?]; done.
  - intros context' dest' counter' Hrun. rewrite Z.add_0_r in Hrun.
    unfold memcpy2 in Hrun. invert_stores. injection Hrun as <- <- <-.
    rename Hs into H1, Hs0 into H2.
    pose proof (store_length _ _ _ _ H1).
    pose proof (store_length _ _ _ _ H2).
    split_and!; try done; [congruence | ..]; try intros j Hj;
      rewrite (load_store _ _ _ _ _ H2), (load_store _ _ _ _ _ H1);
      repeat case_decide; done || lia.
Qed.

(** *** Change detection and the life of a context *)

(** X3.  Change detection is idempotent: run again on the context it left,
    for the same header, it returns the same value and leaves the same
    context. *)
Theorem udp_changed_udp_dynamic_idempotent context udp :
  udp_changed_udp_dynamic (udp_changed_udp_dynamic context udp).2 udp
  = udp_changed_udp_dynamic context udp.
Proof.
  destruct context as [comp [g [count old t]]].
  unfold udp_changed_udp_dynamic, with_udp_context, udp_context. simpl.
  destruct (nonzero (check udp)) eqn:Hu, (nonzero (check old)) eqn:Ho;
    simpl; rewrite ?Hu, ?Ho; simpl; try reflexivity;
    destruct (count <? oa_repetitions_nr comp) eqn:Hc; simpl;
    rewrite ?Hu, ?Ho, ?Hc; reflexivity.
Qed.

Variable rohc_comp_rfc3095_create :
  rohc_comp → rohc_pkt_hdrs → option G.
Variable random_cb : rohc_comp → Z.
Variable udp_init_generic : G → Z → G.

(** X4.  Creating a context aborts exactly when the packet is not announced
    as UDP or has no UDP header.  A context that was created has the
    compressor it was created for, holds the UDP header of the creating
    packet and a count of 0, and its flag [send_udp_dynamic] is -1, so
    [udp_decide_state] selects IR.  For the creating packet itself change
    detection finds no flip and leaves the context alone; it returns 1
    exactly when [oa_repetitions_nr] is positive. *)
Theorem c_udp_create_fresh_context malloc_ok comp hdrs :
  (c_udp_create rohc_comp_rfc3095_create random_cb udp_init_generic
     malloc_ok comp hdrs = None
   ↔ innermost_ip_hdr_next_proto hdrs ≠ ROHC_IPPROTO_UDP ∨ udp hdrs = None)
  ∧ ∀ context,
      c_udp_create rohc_comp_rfc3095_create random_cb udp_init_generic
        malloc_ok comp hdrs = Some (Some context) →
      ∃ hdr,
        udp hdrs = Some hdr
        ∧ malloc_ok = true
        ∧ is_Some (rohc_comp_rfc3095_create comp hdrs)
        ∧ compressor context = comp
        ∧ old_udp (udp_context context) = hdr
        ∧ udp_checksum_change_count (udp_context context) = 0
        ∧ send_udp_dynamic (tmp (udp_context context)) = -1
        ∧ udp_decide_state decide_state context = ROHC_COMP_STATE_IR
        ∧ (udp_changed_udp_dynamic context hdr).2 = context
        ∧ ((udp_changed_udp_dynamic context hdr).1 = 1
           ↔ 0 < oa_repetitions_nr comp).
Proof.
  unfold c_udp_create. split.
  - destruct (Z.eqb_spec (innermost_ip_hdr_next_proto hdrs)
                ROHC_IPPROTO_UDP) as [Hp|Hp]; simpl;
      [|split; [by left|done]].
    destruct (udp hdrs) as [hdr|]; simpl; [|split; [by right|done]].
    destruct (rohc_comp_rfc3095_create comp hdrs); [destruct malloc_ok|];
      (split; [done|intros [?|?]; done]).
  - intros context.
    destruct (_ =? _); simpl; [|done].
    destruct (udp hdrs) as [hdr|]; simpl; [|done].
    destruct (rohc_comp_rfc3095_create comp hdrs) as [g|]; [|done].
    destruct malloc_ok; [|done]. intros [= <-].
    exists hdr. split_and!; try done.
    + rewrite udp_changed_udp_dynamic_snd. simpl.
      by destruct (nonzero (check hdr)).
    + rewrite udp_changed_udp_dynamic_fst. simpl.
      rewrite xorb_nilpotent. simpl.
      destruct (Z.ltb_spec 0 (oa_repetitions_nr comp)); split; done || lia.
Qed.

(** X5.  [c_udp_encode] aborts exactly when the packet is not announced as
    UDP or has no UDP header.  Otherwise it hands back the length, the
    packet type and the buffer of the generic engine, called on the
    context that change detection left, and of the context the engine
    left it changes nothing but the stored UDP header. *)
Theorem c_udp_encode_passes_engine_result context hdrs time pkt max_len :
  (c_udp_encode encode context hdrs time pkt max_len = None
   ↔ innermost_ip_hdr_next_proto hdrs ≠ ROHC_IPPROTO_UDP ∨ udp hdrs = None)
  ∧ ∀ r,
      c_udp_encode encode context hdrs time pkt max_len = Some r →
      ∃ hdr g,
        udp hdrs = Some hdr
        ∧ g = encode (c_udp_encode_detect context hdr) hdrs time pkt max_len
        ∧ size_out r = size_out g
        ∧ packet_type_out r = packet_type_out g
        ∧ rohc_pkt_out r = rohc_pkt_out g
        ∧ compressor (ctxt_out r) = compressor (ctxt_out g)
        ∧ generic (specific (ctxt_out r)) = generic (specific (ctxt_out g))
        ∧ udp_checksum_change_count (udp_context (ctxt_out r))
          = udp_checksum_change_count (udp_context (ctxt_out g))
        ∧ tmp (udp_context (ctxt_out r)) = tmp (udp_context (ctxt_out g)).
Proof.
  unfold c_udp_encode. split.
  - destruct (Z.eqb_spec (innermost_ip_hdr_next_proto hdrs)
                ROHC_IPPROTO_UDP) as [Hp|Hp]; simpl;
      [|split; [by left|done]].
    destruct (udp hdrs) as [hdr|]; simpl; [|split; [by right|done]].
    destruct (_ <? 0); [|case_decide];
      (split; [done|intros [?|?]; done]).
  - intros r.
    destruct (_ =? _); simpl; [|done].
    destruct (udp hdrs) as [hdr|]; simpl; [|done].
    intros Hr. exists hdr. eexists. split; [done|]. split; [done|].
    destruct (_ <? 0); [|case_decide]; injection Hr as <-; done.
Qed.

(** X17.  Whatever the contexts, for a header whose checksum is not zero
    the tail of a UO packet gets the same two octets, at the same place,
    as the dynamic part writes, and fails where it fails; for a header
    whose checksum is zero nothing is written and nothing can fail. *)
Theorem udp_uo_remainder_matches_dynamic_part context context2 hdr
    (dest : list Z) counter :
  (nonzero (check hdr) = true →
   udp_code_uo_remainder context hdr dest counter
   = (λ r, (r.1.2, r.2))
       <$> udp_code_dynamic_udp_part context2 hdr dest counter)
  ∧ (nonzero (check hdr) = false →
     udp_code_uo_remainder context hdr dest counter = Some (dest, counter)).
Proof.
  unfold udp_code_uo_remainder, udp_code_dynamic_udp_part. split.
  - intros ->. rewrite Z.add_0_r.
    destruct (memcpy2 dest counter (check hdr)); simpl; [|done].
    by rewrite Z.add_0_l.
  - intros ->. simpl. by rewrite Z.add_0_r.
Qed.

End Facts.

(** C2, counterexample.  The stored checksum is zero, the count has reached
    [oa_repetitions_nr] = 3 and the flag is clear; a packet with the
    checksum 0x1234 arrives and the generic engine fails.  The call returns
    -1, yet the count is now 0 and the flag is set. *)
Lemma c_udp_encode_failure_changes_context :
  c_udp_encode encode_buffer_too_small (udp_ctxt_with 3 5 (0, 0) 0)
    (pkt_with_check (0x12, 0x34)) (0, 0) [0; 0; 0; 0] 4
  = Some (mk_encode_result (udp_ctxt_with 3 0 (0, 0) 1) [0; 0; 0; 0]
            ROHC_PACKET_UNKNOWN (-1))
  ∧ udp_ctxt_with 3 0 (0, 0) 1 ≠ udp_ctxt_with 3 5 (0, 0) 0.
Proof. split; [reflexivity | discriminate]. Qed.

Lemma c_udp_encode_failure_witness :
  ∃ hdr,
    udp (pkt_with_check (0x12, 0x34)) = Some hdr
    ∧ old_udp (udp_context (udp_ctxt_with 3 0 (0, 0) 1))
      = old_udp (udp_context (udp_ctxt_with 3 5 (0, 0) 0))
    ∧ send_udp_dynamic (tmp (udp_context (udp_ctxt_with 3 0 (0, 0) 1)))
      = (udp_changed_udp_dynamic (udp_ctxt_with 3 5 (0, 0) 0) hdr).1
    ∧ udp_checksum_change_count (udp_context (udp_ctxt_with 3 0 (0, 0) 1))
      = 0.
Proof.
  destruct (c_udp_encode_failure encode_buffer_too_small
              (udp_ctxt_with 3 5 (0, 0) 0) (pkt_with_check (0x12, 0x34))
              (0, 0) [0; 0; 0; 0] 4
              (mk_encode_result (udp_ctxt_with 3 0 (0, 0) 1) [0; 0; 0; 0]
                 ROHC_PACKET_UNKNOWN (-1)))
    as (hdr & Hudp & _ & _ & _ & _ & Hold & Hsend & Hcount).
  - intros c _. reflexivity.
  - reflexivity.
  - simpl. lia.
  - exists hdr. injection Hudp as <-. split_and!; [done | done | done |].
    exact Hcount.
Defined.

Lemma udp_uo_remainder_iff_reference_checksum_witness :
  udp_code_uo_remainder
    (c_udp_encode_detect (udp_ctxt_with 3 3 (0xab, 0xcd) 0)
       (hdr_with_check (0x12, 0x34)))
    (hdr_with_check (0x12, 0x34)) [0x01; 0; 0; 0] 1
  = Some ([0x01; 0x12; 0x34; 0], 3).
Proof.
  destruct (udp_uo_remainder_iff_reference_checksum
              (λ _, ROHC_COMP_STATE_SO) (udp_ctxt_with 3 3 (0xab, 0xcd) 0)
              (hdr_with_check (0x12, 0x34)) [0x01; 0; 0; 0] 1)
    as (dest' & counter' & Hrun & Hcase).
  - vm_compute. discriminate.
  - lia.
  - simpl. lia.
  - rewrite Hrun. destruct Hcase as [(_ & -> & ->) | (Hz & _)].
    + reflexivity.
    + vm_compute in Hz. discriminate.
Defined.

Lemma c_udp_encode_updates_old_udp_witness :
  c_udp_encode (encode_fixed ROHC_PACKET_IR 10) (udp_ctxt_with 3 0 (0, 0) 0)
    (pkt_with_check (0x12, 0x34)) (0, 0) [0; 0; 0; 0] 4
  = Some (mk_encode_result (udp_ctxt_with 3 0 (0x12, 0x34) 1) [0; 0; 0; 0]
            ROHC_PACKET_IR 10)
  ∧ old_udp (udp_context (udp_ctxt_with 3 0 (0x12, 0x34) 1))
    = hdr_with_check (0x12, 0x34).
Proof.
  split; [reflexivity|].
  destruct (c_udp_encode_updates_old_udp (encode_fixed ROHC_PACKET_IR 10)
              (udp_ctxt_with 3 0 (0, 0) 0) (pkt_with_check (0x12, 0x34))
              (0, 0) [0; 0; 0; 0] 4
              (mk_encode_result
                 (udp_ctxt_with 3 0 (0x12, 0x34) 1) [0; 0; 0; 0]
                 ROHC_PACKET_IR 10))
    as (hdr & Hudp & Hir & _).
  - intros c. reflexivity.
  - reflexivity.
  - simpl. lia.
  - injection Hudp as <-. apply Hir. by left.
Defined.

End UdpFacts.

(** ** The Uncompressed profile *)

Module UncompressedFacts.
Import Buffer BufferFacts Uncompressed.

Implicit Types (context : c_context) (feedback : c_feedback).

(** *** State and mode changes *)

Lemma int_wrap_id z : - 2 ^ 31 ≤ z < 2 ^ 31 → int_wrap z = z.
Proof.
  intros Hz. unfold int_wrap.
  rewrite Z.mod_small by lia. lia.
Qed.

Lemma uncompressed_change_state_state context s :
  state (uncompressed_change_state context s) = s.
Proof. unfold uncompressed_change_state. by case_decide. Qed.

Lemma uncompressed_change_state_same context :
  uncompressed_change_state context (state context) = context.
Proof. unfold uncompressed_change_state. by rewrite decide_False by auto. Qed.

Lemma uncompressed_change_state_frame context s :
  mode (uncompressed_change_state context s) = mode context
  ∧ cid (uncompressed_change_state context s) = cid context
  ∧ compressor (uncompressed_change_state context s) = compressor context
  ∧ go_back_ir_count (specific (uncompressed_change_state context s))
    = go_back_ir_count (specific context).
Proof. unfold uncompressed_change_state. by case_decide. Qed.

Lemma uncompressed_change_state_ir_count context s :
  ir_count (specific (uncompressed_change_state context s))
  = if decide (state context = s) then ir_count (specific context) else 0.
Proof. unfold uncompressed_change_state. by repeat case_decide. Qed.

Lemma uncompressed_change_mode_mode context m :
  mode (uncompressed_change_mode context m) = m.
Proof.
  unfold uncompressed_change_mode. case_decide as H.
  - by destruct (uncompressed_change_state_frame (set_mode context m) IR)
      as [-> _].
  - done.
Qed.

Lemma uncompressed_change_mode_same context :
  uncompressed_change_mode context (mode context) = context.
Proof. unfold uncompressed_change_mode. by rewrite decide_False by auto. Qed.

Lemma uncompressed_change_mode_state context m :
  m ≠ mode context → state (uncompressed_change_mode context m) = IR.
Proof.
  intros Hm. unfold uncompressed_change_mode.
  rewrite decide_True by done. apply uncompressed_change_state_state.
Qed.

(** *** The option loop of the feedback handler *)

Lemma feedback_options_done fuel (data : list Z) p remaining crc used :
  remaining ≤ 0 →
  feedback_options fuel data p remaining crc used = Some (data, crc, used).
Proof.
  intros Hr. destruct fuel; simpl; by rewrite (proj2 (Z.leb_le _ _) Hr).
Qed.

(** What the loop leaves: the buffer keeps its length, every octet is
    either untouched or zero, nothing at or before [p] is written, and
    either no CRC option was met, or the last one met sits at some [i],
    its value in the original buffer is [crc_in_packet] and it is zero in
    the buffer left. *)
Lemma feedback_options_inv fuel :
  ∀ (data : list Z) p remaining crc used data' crc' used',
    feedback_options fuel data p remaining crc used
      = Some (data', crc', used') →
    length data' = length data
    ∧ (∀ j, j ≤ p → load data' j = load data j)
    ∧ (∀ j, load data' j = load data j ∨ load data' j = Some 0)
    ∧ (used' = used ∧ crc' = crc ∧ data' = data
       ∨ used' = true
         ∧ ∃ i b, p ≤ i ∧ load data i = Some b ∧ Z.shiftr b 4 = 1
                  ∧ load data (i + 1) = Some crc'
                  ∧ load data' (i + 1) = Some 0).
Proof.
  induction fuel as [|fuel IH]; intros data p remaining crc used
    data' crc' used'; simpl.
  { destruct (remaining <=? 0); [|done].
    intros [= <- <- <-]. split_and!; auto. }
  destruct (remaining <=? 0); [intros [= <- <- <-]; split_and!; by auto|].
  destruct (load data p) as [b|] eqn:Hb; [|done]. simpl.
  assert (0 ≤ Z.land b 15) as Hlen.
  { apply Z.land_nonneg. by right. }
  destruct (Z.eqb_spec (Z.shiftr b 4) 1) as [Hopt|Hopt].
  - destruct (load data (p + 1)) as [v|] eqn:Hv; [|done]. simpl.
    destruct (store data (p + 1) 0) as [d|] eqn:Hd; [|done]. simpl.
    intros Hrun. apply IH in Hrun as (Hlen' & Hbefore & Hzero & Hcrc).
    assert (∀ j, j ≠ p + 1 → load d j = load data j) as Hother.
    { intros j Hj. eapply load_store_ne; [done|lia]. }
    pose proof (load_store_eq _ _ _ _ Hd) as Hat.
    split_and!.
    + rewrite Hlen'. by eapply store_length.
    + intros j Hj. rewrite Hbefore by lia. apply Hother. lia.
    + intros j. destruct (decide (j = p + 1)) as [->|Hj].
      * right. destruct (Hzero (p + 1)) as [->| ->]; done.
      * destruct (Hzero j) as [->| ->]; [left; by apply Hother|by right].
    + right. split; [by destruct Hcrc as [(-> & _)|(-> & _)]|].
      destruct Hcrc
        as [(_ & -> & ->)|(_ & i & b' & Hi & Hbi & Hoi & Hvi & Hzi)].
      * exists p, b. split_and!; done || lia.
      * exists i, b'. destruct (decide (i = p + 1)) as [->|Hne].
        { rewrite Hat in Hbi. injection Hbi as <-. done. }
        rewrite Hother in Hbi by done. rewrite Hother in Hvi by lia.
        split_and!; done || lia.
  - intros Hrun. apply IH in Hrun as (Hlen' & Hbefore & Hzero & Hcrc).
    split_and!; try done.
    + intros j Hj. apply Hbefore. lia.
    + destruct Hcrc as [?|(? & i & b' & Hi & ?)]; [by left|right].
      split; [done|]. exists i, b'. split; [lia|done].
Qed.

(** The result does not depend on the fuel once there is enough of it, so
    a call can only fail on an access outside the buffer. *)
Lemma feedback_options_fuel fuel :
  ∀ fuel' (data : list Z) p remaining crc used,
    (Z.to_nat remaining ≤ fuel)%nat →
    (Z.to_nat remaining ≤ fuel')%nat →
    feedback_options fuel data p remaining crc used
    = feedback_options fuel' data p remaining crc used.
Proof.
  induction fuel as [|fuel IH];
    intros fuel' data p remaining crc used Hfuel Hfuel'.
  { rewrite !feedback_options_done by lia. done. }
  destruct (Z.leb_spec remaining 0) as [Hr|Hr].
  { rewrite !feedback_options_done by lia. done. }
  destruct fuel' as [|fuel']; [lia|]. simpl.
  rewrite (proj2 (Z.leb_gt _ _) Hr).
  destruct (load data p) as [b|]; [|done]. simpl.
  assert (0 ≤ Z.land b 15) as Hlen.
  { apply Z.land_nonneg. by right. }
  destruct (Z.shiftr b 4 =? 1).
  - destruct (load data (p + 1)) as [v|]; [|done]. simpl.
    destruct (store data (p + 1) 0) as [d|]; [|done]. simpl.
    apply IH; lia.
  - apply IH; lia.
Qed.

(** The loop returns whenever the octet after the options still belongs to
    the buffer: [remaining] iterations are always enough. *)
Lemma feedback_options_returns fuel :
  ∀ (data : list Z) p remaining crc used,
    0 ≤ p →
    p + remaining < Z.of_nat (length data) →
    (Z.to_nat remaining ≤ fuel)%nat →
    is_Some (feedback_options fuel data p remaining crc used).
Proof.
  induction fuel as [|fuel IH]; intros data p remaining crc used Hp Hin Hfuel.
  { rewrite feedback_options_done by lia. done. }
  simpl. destruct (Z.leb_spec remaining 0) as [Hr|Hr]; [done|].
  destruct (load_in_range data p) as [b Hb]; [lia|]. rewrite Hb. simpl.
  assert (0 ≤ Z.land b 15) as Hlen.
  { apply Z.land_nonneg. by right. }
  destruct (Z.shiftr b 4 =? 1).
  - destruct (load_in_range data (p + 1)) as [v Hv]; [lia|].
    rewrite Hv. simpl. rewrite store_in_range by lia. simpl.
    apply IH; [lia|rewrite length_insert; lia|lia].
  - apply IH; lia.
Qed.

(** *** The state decision *)

(** *** The option loop against the options the feedback carries *)

Lemma spec_crc_options_ge fuel :
  ∀ (data : list Z) p remaining i,
    i ∈ spec_crc_options fuel data p remaining → p ≤ i.
Proof.
  induction fuel as [|fuel IH]; intros data p remaining i; simpl.
  { destruct (remaining <=? 0); by intros ?%elem_of_nil. }
  destruct (remaining <=? 0); [by intros ?%elem_of_nil|].
  destruct (load data p) as [b|]; [|by intros ?%elem_of_nil].
  assert (0 ≤ Z.land b 15) as Hlen by (apply Z.land_nonneg; by right).
  intros [Hi|Hi]%elem_of_app.
  - destruct (_ =? 1); [|by apply elem_of_nil in Hi].
    apply list_elem_of_singleton in Hi. lia.
  - apply IH in Hi. lia.
Qed.

Lemma spec_crc_options_ext fuel :
  ∀ (data d : list Z) p remaining,
    (∀ j, p ≤ j → load d j = load data j) →
    spec_crc_options fuel d p remaining
    = spec_crc_options fuel data p remaining.
Proof.
  induction fuel as [|fuel IH]; intros data d p remaining Hagree; simpl.
  { done. }
  destruct (remaining <=? 0); [done|].
  rewrite Hagree by lia.
  destruct (load data p) as [b|]; [|done].
  assert (0 ≤ Z.land b 15) as Hlen by (apply Z.land_nonneg; by right).
  f_equal. apply IH. intros j Hj. apply Hagree. lia.
Qed.

(** The loop finds a CRC option exactly when the feedback carries one; it
    zeroes the value octet of the first one in any case; and when every
    CRC option carried has a value (a length of at least one), it zeroes
    the value octet of each of them and of nothing else, and keeps the
    value of the last one. *)
Lemma feedback_options_spec fuel :
  ∀ (data : list Z) p remaining crc used data' crc' used',
    feedback_options fuel data p remaining crc used
      = Some (data', crc', used') →
    (used' = true
     ↔ used = true ∨ spec_crc_options fuel data p remaining ≠ [])
    ∧ (spec_crc_options fuel data p remaining = [] →
       data' = data ∧ crc' = crc)
    ∧ (∀ i, head (spec_crc_options fuel data p remaining) = Some i →
            load data' (i + 1) = Some 0)
    ∧ (Forall (λ i, ∃ o, load data i = Some o ∧ 1 ≤ Z.land o 15)
         (spec_crc_options fuel data p remaining) →
       data' = spec_zero_crc data (spec_crc_options fuel data p remaining)
       ∧ (∀ i, i ∈ spec_crc_options fuel data p remaining →
               load data' (i + 1) = Some 0)
       ∧ (∀ i, last (spec_crc_options fuel data p remaining) = Some i →
               load data (i + 1) = Some crc')).
Proof.
  induction fuel as [|fuel IH];
    intros data p remaining crc used data' crc' used'; simpl.
  { destruct (remaining <=? 0); [|done]. intros [= <- <- <-].
    split_and!; try done; [tauto|].
    intros _. split_and!; [done| |done]. by intros i ?%elem_of_nil. }
  destruct (remaining <=? 0).
  { intros [= <- <- <-].
    split_and!; try done; [tauto|].
    intros _. split_and!; [done| |done]. by intros i ?%elem_of_nil. }
  destruct (load data p) as [b|] eqn:Hb; [|done]. simpl.
  assert (0 ≤ Z.land b 15) as Hlen by (apply Z.land_nonneg; by right).
  destruct (Z.eqb_spec (Z.shiftr b 4) 1) as [Hopt|Hopt]; simpl.
  2: { intros Hrun. by apply IH in Hrun. }
  destruct (load data (p + 1)) as [v|] eqn:Hv; [|done]. simpl.
  destruct (store data (p + 1) 0) as [d|] eqn:Hd; [|done]. simpl.
  intros Hrun.
  pose proof (feedback_options_inv _ _ _ _ _ _ _ _ _ Hrun)
    as (_ & _ & Hzero & _).
  pose proof (load_store_eq _ _ _ _ Hd) as Hat.
  apply IH in Hrun as (Hused & Hnone & _ & Hwf).
  split_and!.
  - split; [by right|]. intros _. apply Hused. by left.
  - done.
  - intros i [= <-]. destruct (Hzero (p + 1)) as [->| ->]; done.
  - intros Hall. apply Forall_cons in Hall as [(o & Ho & Hlo) Hall].
    rewrite Hb in Ho. injection Ho as <-.
    assert (∀ j, p + (1 + Z.land b 15) ≤ j → load d j = load data j)
      as Hagree.
    { intros j Hj. apply (load_store_ne _ _ _ _ _ Hd). lia. }
    rewrite (spec_crc_options_ext _ _ _ _ _ Hagree) in Hnone, Hwf.
    destruct Hwf as (Hdata & Hzeros & Hlast).
    { apply Forall_forall. intros i Hi.
      rewrite Forall_forall in Hall. destruct (Hall i Hi) as (o & Ho & ?).
      exists o. split; [|done]. rewrite Hagree; [done|].
      by eapply spec_crc_options_ge. }
    split_and!.
    + rewrite Hdata. unfold spec_zero_crc. simpl.
      by destruct (store_Some_inv _ _ _ _ Hd) as [_ ->].
    + intros i [->|Hi]%elem_of_cons; [|by apply Hzeros].
      destruct (Hzero (p + 1)) as [->| ->]; done.
    + intros i.
      destruct (spec_crc_options fuel data _ _) as [|i' opts] eqn:Hopts.
      * intros [= <-]. by destruct Hnone as [_ ->].
      * rewrite last_cons_cons. intros Hi. rewrite <- (Hlast i Hi).
        symmetry. apply (load_store_ne _ _ _ _ _ Hd).
        assert (i ∈ i' :: opts) as Hin by (by apply last_Some_elem_of).
        rewrite <- Hopts in Hin. apply spec_crc_options_ge in Hin. lia.
Qed.

(** The options listed are CRC options of the feedback as received. *)
Lemma spec_crc_options_header fuel :
  ∀ (data : list Z) p remaining i,
    i ∈ spec_crc_options fuel data p remaining →
    ∃ o, load data i = Some o ∧ Z.shiftr o 4 = 1.
Proof.
  induction fuel as [|fuel IH]; intros data p remaining i; simpl.
  { destruct (remaining <=? 0); by intros ?%elem_of_nil. }
  destruct (remaining <=? 0); [by intros ?%elem_of_nil|].
  destruct (load data p) as [b|] eqn:Hb; [|by intros ?%elem_of_nil].
  intros [Hi|Hi]%elem_of_app; [|by eapply IH].
  destruct (Z.eqb_spec (Z.shiftr b 4) 1); [|by apply elem_of_nil in Hi].
  apply list_elem_of_singleton in Hi as ->. by exists b.
Qed.

(** The walk ends within [remaining] steps, so more fuel lists the same
    options. *)
Lemma spec_crc_options_fuel fuel :
  ∀ fuel' (data : list Z) p remaining,
    (Z.to_nat remaining ≤ fuel)%nat →
    (Z.to_nat remaining ≤ fuel')%nat →
    spec_crc_options fuel data p remaining
    = spec_crc_options fuel' data p remaining.
Proof.
  induction fuel as [|fuel IH]; intros fuel' data p remaining Hfuel Hfuel'.
  { destruct fuel'; simpl; [done|].
    by rewrite (proj2 (Z.leb_le remaining 0)) by lia. }
  destruct fuel' as [|fuel']; simpl.
  { by rewrite (proj2 (Z.leb_le remaining 0)) by lia. }
  destruct (Z.leb_spec remaining 0) as [Hr|Hr]; [done|].
  destruct (load data p) as [b|]; [|done].
  assert (0 ≤ Z.land b 15) as Hlen by (apply Z.land_nonneg; by right).
  f_equal. apply IH; lia.
Qed.

(** The loop of the handler against the CRC options a FEEDBACK-2 carries. *)
Lemma feedback2_options_carried feedback data' crc used :
  feedback_options (Z.to_nat (specific_size feedback - 2))
    (data feedback) (specific_offset feedback + 2)
    (specific_size feedback - 2) 0 false
  = Some (data', crc, used) →
  (used = true ↔ feedback2_crc_options feedback ≠ [])
  ∧ (feedback2_crc_options feedback = [] → data' = data feedback)
  ∧ (∀ i, head (feedback2_crc_options feedback) = Some i →
          load data' (i + 1) = Some 0)
  ∧ (Forall (λ i, crc_option_has_value (data feedback) i = true)
       (feedback2_crc_options feedback) →
     data' = spec_zero_crc (data feedback) (feedback2_crc_options feedback)
     ∧ (∀ i, i ∈ feedback2_crc_options feedback →
             load data' (i + 1) = Some 0)
     ∧ (∀ i, last (feedback2_crc_options feedback) = Some i →
             load (data feedback) (i + 1) = Some crc)).
Proof.
  intros Hrun. unfold feedback2_crc_options.
  apply feedback_options_spec in Hrun as (Hused & Hnone & Hhead & Hwf).
  split_and!.
  - rewrite Hused. split; [by intros [?|?]|by right].
  - intros Hnil. by destruct (Hnone Hnil).
  - done.
  - intros Hall. apply Hwf. eapply Forall_impl; [exact Hall|].
    intros i. unfold crc_option_has_value.
    destruct (load (data feedback) i) as [o|]; [|done].
    intros ?%Z.leb_le. by exists o.
Qed.

Section Facts.

Variable MAX_IR_COUNT : Z.
Variable U_MODE : Z.
Variable crc_calculate : list Z → Z.
Variable code_cid_values :
  rohc_cid_type_t → Z → list Z → Z → option (Z * Z * list Z).

Local Abbreviation decide_state :=
  (uncompressed_decide_state MAX_IR_COUNT U_MODE).
Local Abbreviation encode :=
  (c_uncompressed_encode MAX_IR_COUNT U_MODE crc_calculate code_cid_values).

(** Case analysis on the tests a state decision makes. *)
Ltac state_cases :=
  repeat first
    [ progress simpl in *
    | progress subst
    | case_decide
    | case_bool_decide
    | match goal with
      | |- context [?a >=? ?b] =>
          let H := fresh "Hge" in
          destruct (Z.geb_spec a b) as [H|H]
      | |- context [?a =? ?b] =>
          let H := fresh "Heq" in
          destruct (Z.eqb_spec a b) as [H|H]
      end ];
  try done; try lia.

Lemma periodic_down_transition_due context :
  periodic_refreshes_ir_timeout (compressor context)
    ≤ go_back_ir_count (specific context) →
  state (uncompressed_periodic_down_transition context) = IR
  ∧ go_back_ir_count
      (specific (uncompressed_periodic_down_transition context)) = 0.
Proof.
  intros Hdue. destruct context as [? ? st ? []].
  unfold uncompressed_periodic_down_transition, uncompressed_change_state.
  destruct st; state_cases.
Qed.

Lemma periodic_down_transition_not_due context :
  go_back_ir_count (specific context)
    < periodic_refreshes_ir_timeout (compressor context) →
  state (uncompressed_periodic_down_transition context) = state context
  ∧ go_back_ir_count
      (specific (uncompressed_periodic_down_transition context))
    = (if decide (state context = FO)
       then int_wrap (go_back_ir_count (specific context) + 1)
       else go_back_ir_count (specific context))
  ∧ ir_count (specific (uncompressed_periodic_down_transition context))
    = ir_count (specific context).
Proof.
  intros Hdue. destruct context as [? ? st ? []].
  unfold uncompressed_periodic_down_transition, uncompressed_change_state.
  destruct st; state_cases.
Qed.

Lemma periodic_down_transition_frame context :
  mode (uncompressed_periodic_down_transition context) = mode context
  ∧ compressor (uncompressed_periodic_down_transition context)
    = compressor context
  ∧ cid (uncompressed_periodic_down_transition context) = cid context
  ∧ (state context ≠ SO →
     state (uncompressed_periodic_down_transition context) ≠ SO).
Proof.
  destruct context as [? ? st ? []].
  unfold uncompressed_periodic_down_transition, uncompressed_change_state.
  destruct st; state_cases.
Qed.

Lemma decide_state_frame context :
  mode (decide_state context) = mode context
  ∧ compressor (decide_state context) = compressor context
  ∧ cid (decide_state context) = cid context.
Proof.
  unfold uncompressed_decide_state.
  set (c1 := if _ && _ then _ else _).
  assert (mode c1 = mode context ∧ compressor c1 = compressor context
          ∧ cid c1 = cid context) as (Hm & Hc & Hi).
  { subst c1. destruct (_ && _); [|done].
    destruct (uncompressed_change_state_frame context FO)
      as (? & ? & ? & _). done. }
  destruct (periodic_down_transition_frame c1) as (? & ? & ? & _).
  destruct (_ =? _); [|done]. split_and!; congruence.
Qed.

(** The packet type follows the state decided for the packet. *)
Lemma encode_Some context ip packet_size dest dest_size payload_offset r :
  encode context ip packet_size dest dest_size payload_offset = Some r →
  state (ctxt_out r) = state (decide_state context)
  ∧ mode (ctxt_out r) = mode context
  ∧ go_back_ir_count (specific (ctxt_out r))
    = go_back_ir_count (specific (decide_state context))
  ∧ packet_type_out r =
      match state (decide_state context) with
      | IR => PACKET_IR
      | FO => PACKET_NORMAL
      | SO => PACKET_UNKNOWN
      end.
Proof.
  unfold c_uncompressed_encode, uncompressed_code_packet.
  destruct (decide_state_frame context) as (Hm & _).
  destruct (state (decide_state context)) eqn:Hs; simpl.
  - destruct (uncompressed_code_IR_packet _ _ _ _ _ _) as [[[]]|];
      [|done].
    simpl. by intros [= <-].
  - destruct (uncompressed_code_normal_packet _ _ _ _ _) as [[[]]|];
      [|done].
    simpl. by intros [= <-].
  - by intros [= <-].
Qed.

(** *** The feedback handler *)

(** The context an accepted FEEDBACK-2 leaves: the mode change, if one is
    requested and a CRC option was met, then the effect of the
    acknowledgement type. *)
Lemma deliver_feedback2_Some context feedback context' data' :
  type feedback = 2 →
  c_uncompressed_feedback crc_calculate context feedback
    = Some (context', data') →
  ∃ b crc used,
    load (data feedback) (specific_offset feedback) = Some b
    ∧ feedback_options (Z.to_nat (specific_size feedback - 2))
        (data feedback) (specific_offset feedback + 2)
        (specific_size feedback - 2) 0 false
      = Some (data', crc, used)
    ∧ (used = true ∧ crc ≠ crc_calculate data' ∧ context' = context
       ∨ (used = false ∨ crc = crc_calculate data')
         ∧ ∃ c1,
             (Z.land (Z.shiftr b 4) 3 ≠ 0 ∧ used = true
              ∧ c1 = uncompressed_change_mode context
                       (Z.land (Z.shiftr b 4) 3)
              ∨ (Z.land (Z.shiftr b 4) 3 = 0 ∨ used = false)
                ∧ c1 = context)
             ∧ context' =
                 match acktype feedback with
                 | STATIC_NACK => uncompressed_change_state c1 IR
                 | _ => c1
                 end).
Proof.
  intros Htype. unfold c_uncompressed_feedback. rewrite Htype. simpl.
  destruct (load _ _) as [b|]; [|done]. simpl.
  destruct (feedback_options _ _ _ _ _ _) as [[[d crc] used]|]; [|done].
  simpl. intros Hrun. exists b, crc, used. split; [done|].
  destruct used; simpl in Hrun.
  - destruct (Z.eqb_spec crc (crc_calculate d)) as [Hcrc|Hcrc];
      simpl in Hrun; injection Hrun as <- <-; split; [done| |done|];
      [right|left; done].
    split; [by right|].
    destruct (Z.eqb_spec (Z.land (Z.shiftr b 4) 3) 0) as [Hm|Hm]; simpl.
    + exists context. split; [right; auto|].
      by destruct (acktype feedback).
    + eexists. split; [left; done|]. by destruct (acktype feedback).
  - injection Hrun as <- <-. split; [done|]. right. split; [by left|].
    exists context. split.
    + right. auto.
    + destruct (Z.land (Z.shiftr b 4) 3 =? 0); by destruct (acktype feedback).
Qed.

(** The handler leaves the state alone or sets it to IR. *)
Lemma feedback_state_cases context feedback context' data' :
  c_uncompressed_feedback crc_calculate context feedback
    = Some (context', data') →
  state context' = state context ∨ state context' = IR.
Proof.
  destruct (decide (type feedback = 2)) as [Htype|Htype].
  - intros Hrun.
    destruct (deliver_feedback2_Some _ _ _ _ Htype Hrun)
      as (b & crc & used & _ & _ & Hcases).
    destruct Hcases as [(_ & _ & ->)|(_ & c1 & Hc1 & ->)]; [by left|].
    assert (state c1 = state context ∨ state c1 = IR) as Hc1'.
    { destruct Hc1 as [(_ & _ & ->)|(_ & ->)]; [|by left].
      destruct (decide (Z.land (Z.shiftr b 4) 3 = mode context)) as [->|Hne].
      - left. by rewrite uncompressed_change_mode_same.
      - right. by apply uncompressed_change_mode_state. }
    destruct (acktype feedback); try done.
    right. apply uncompressed_change_state_state.
  - unfold c_uncompressed_feedback.
    destruct (type feedback =? 1); [intros [= <- _]; by left|].
    destruct (Z.eqb_spec (type feedback) 2); [done|].
    intros [= <- _]. by left.
Qed.

(** The handler returns whenever the octet after the profile-specific part
    still belongs to the feedback packet. *)
Lemma deliver_returns context feedback :
  0 ≤ specific_offset feedback < Z.of_nat (length (data feedback)) →
  specific_offset feedback + specific_size feedback
    < Z.of_nat (length (data feedback)) →
  is_Some (c_uncompressed_feedback crc_calculate context feedback).
Proof.
  intros Hoff Hsize. unfold c_uncompressed_feedback.
  destruct (type feedback =? 1); [done|].
  destruct (type feedback =? 2); [|done].
  destruct (load_in_range (data feedback) (specific_offset feedback))
    as [b ->]; [done|]. simpl.
  destruct (feedback_options_returns
              (Z.to_nat (specific_size feedback - 2)) (data feedback)
              (specific_offset feedback + 2) (specific_size feedback - 2)
              0 false) as [[[d crc] used] ->]; [lia|lia|lia|].
  simpl. by destruct (_ && _).
Qed.

(** C5.  For a FEEDBACK-2 the handler returns from, the options were
    parsed; a CRC option, if one was met, has its value octet zeroed in
    the buffer the CRC-8 is computed over; a CRC option whose value is not
    that CRC-8 leaves the context as it was; and a requested mode (the two
    mode bits non-zero and different from the current mode) becomes the
    mode of the context exactly when a CRC option was met and its value is
    the CRC-8 of the whole feedback with that octet zeroed.

    The loop meets a CRC option exactly when the feedback as received
    carries one ([feedback2_crc_options]), so the same holds of the CRC
    options carried: the requested mode is applied exactly when the
    feedback carries a CRC option and the value kept is the CRC-8 of the
    buffer left; a feedback that carries one and fails the comparison
    leaves the context as it was; a feedback that carries none leaves the
    buffer and the mode as they were.  When every CRC option carried has a
    value, the buffer left is the feedback with the value octets of its
    CRC options zeroed ([spec_zero_crc]) and the value kept is that of the
    last one, so the requested mode is applied exactly when the feedback
    carries a CRC option and the value of the last one is the CRC-8 of the
    feedback with these octets zeroed. *)
Theorem feedback2_mode_change_needs_valid_crc context feedback
    context' data' :
  type feedback = 2 →
  c_uncompressed_feedback crc_calculate context feedback
    = Some (context', data') →
  ∃ b crc_in_packet is_crc_used,
    load (data feedback) (specific_offset feedback) = Some b
    ∧ feedback_options (Z.to_nat (specific_size feedback - 2))
        (data feedback) (specific_offset feedback + 2)
        (specific_size feedback - 2) 0 false
      = Some (data', crc_in_packet, is_crc_used)
    ∧ (is_crc_used = true →
       ∃ i o, specific_offset feedback + 2 ≤ i
              ∧ load (data feedback) i = Some o ∧ Z.shiftr o 4 = 1
              ∧ load (data feedback) (i + 1) = Some crc_in_packet
              ∧ load data' (i + 1) = Some 0)
    ∧ (is_crc_used = true → crc_in_packet ≠ crc_calculate data' →
       context' = context)
    ∧ (Z.land (Z.shiftr b 4) 3 ≠ 0 →
       Z.land (Z.shiftr b 4) 3 ≠ mode context →
       (mode context' = Z.land (Z.shiftr b 4) 3
        ↔ is_crc_used = true ∧ crc_in_packet = crc_calculate data'))
    ∧ (mode context' ≠ mode context →
       mode context' = Z.land (Z.shiftr b 4) 3
       ∧ is_crc_used = true ∧ crc_in_packet = crc_calculate data')
    ∧ (is_crc_used = true ↔ feedback2_crc_options feedback ≠ [])
    ∧ (Z.land (Z.shiftr b 4) 3 ≠ 0 →
       Z.land (Z.shiftr b 4) 3 ≠ mode context →
       (mode context' = Z.land (Z.shiftr b 4) 3
        ↔ feedback2_crc_options feedback ≠ []
          ∧ crc_in_packet = crc_calculate data'))
    ∧ (feedback2_crc_options feedback ≠ [] →
       crc_in_packet ≠ crc_calculate data' → context' = context)
    ∧ (feedback2_crc_options feedback = [] →
       data' = data feedback ∧ mode context' = mode context)
    ∧ (Forall (λ i, crc_option_has_value (data feedback) i = true)
         (feedback2_crc_options feedback) →
       data' = spec_zero_crc (data feedback) (feedback2_crc_options feedback)
       ∧ (∀ i, last (feedback2_crc_options feedback) = Some i →
               load (data feedback) (i + 1) = Some crc_in_packet)
       ∧ (Z.land (Z.shiftr b 4) 3 ≠ 0 →
          Z.land (Z.shiftr b 4) 3 ≠ mode context →
          (mode context' = Z.land (Z.shiftr b 4) 3
           ↔ ∃ i, last (feedback2_crc_options feedback) = Some i
                  ∧ load (data feedback) (i + 1)
                    = Some (crc_calculate
                              (spec_zero_crc (data feedback)
                                 (feedback2_crc_options feedback)))))).
Proof.
  intros Htype Hrun.
  destruct (deliver_feedback2_Some _ _ _ _ Htype Hrun)
    as (b & crc & used & Hb & Hopts & Hcases).
  exists b, crc, used. split; [done|]. split; [done|].
  destruct (feedback2_options_carried _ _ _ _ Hopts)
    as (Hcarried & Hnone & _ & Hwf).
  assert (feedback2_crc_options feedback = [] ↔ used = false) as Hnil.
  { destruct used; split; try done.
    - intros Hn. by apply Hcarried in Hn.
    - intros _. destruct (feedback2_crc_options feedback); [done|].
      by assert (false = true) by (by apply Hcarried). }
  assert (((mode context' ≠ mode context →
            mode context' = Z.land (Z.shiftr b 4) 3
            ∧ used = true ∧ crc = crc_calculate data')) →
          (feedback2_crc_options feedback = [] →
           data' = data feedback ∧ mode context' = mode context)) as Hkeep.
  { intros Hchg Hn. split; [by apply Hnone|].
    destruct (decide (mode context' = mode context)) as [|Hne]; [done|].
    apply Hchg in Hne as (_ & Hu & _). apply Hnil in Hn. congruence. }
  cut ((used = true →
        ∃ i o, specific_offset feedback + 2 ≤ i
               ∧ load (data feedback) i = Some o ∧ Z.shiftr o 4 = 1
               ∧ load (data feedback) (i + 1) = Some crc
               ∧ load data' (i + 1) = Some 0)
       ∧ (used = true → crc ≠ crc_calculate data' → context' = context)
       ∧ (Z.land (Z.shiftr b 4) 3 ≠ 0 →
          Z.land (Z.shiftr b 4) 3 ≠ mode context →
          (mode context' = Z.land (Z.shiftr b 4) 3
           ↔ used = true ∧ crc = crc_calculate data'))
       ∧ (mode context' ≠ mode context →
          mode context' = Z.land (Z.shiftr b 4) 3
          ∧ used = true ∧ crc = crc_calculate data')).
  { intros (H1 & H2 & H3 & H4). split_and!; try done.
    - intros Hm0 Hm. by rewrite <- Hcarried, (H3 Hm0 Hm).
    - intros Hsome. apply H2. by apply Hcarried.
    - by apply Hkeep.
    - intros Hall. destruct (Hwf Hall) as (Hdata & _ & Hlast).
      split_and!; [done..|]. intros Hm0 Hm.
      rewrite (H3 Hm0 Hm), Hcarried, <- Hdata. split.
      + intros [[i Hi]%last_is_Some ->]. exists i. split; [done|].
        by apply Hlast.
      + intros (i & Hi & Hv). split; [by apply last_is_Some|].
        apply Hlast in Hi. congruence. }
  assert (∀ c1,
            context' = match acktype feedback with
                       | STATIC_NACK => uncompressed_change_state c1 IR
                       | _ => c1
                       end → mode context' = mode c1) as Hack.
  { intros c1 ->. destruct (acktype feedback); try done.
    by destruct (uncompressed_change_state_frame c1 IR) as [-> _]. }
  split_and!.
  - intros ->.
    destruct (feedback_options_inv _ _ _ _ _ _ _ _ _ Hopts)
      as (_ & _ & _ & [(? & _)|(_ & i & o & ?)]); [done|]. by exists i, o.
  - intros -> Hbad.
    destruct Hcases as [(_ & _ & ?)|([?|?] & _)]; done.
  - intros Hm0 Hm. split.
    + intros Hmode.
      destruct Hcases as [(_ & _ & ->)|(Hok & c1 & Hc1 & Hctx)]; [done|].
      apply Hack in Hctx. rewrite Hctx in Hmode.
      destruct Hc1 as [(_ & -> & _)|([?|?] & ->)]; try done.
      destruct Hok; done.
    + intros (-> & Hcrc).
      destruct Hcases as [(_ & ? & _)|(_ & c1 & Hc1 & Hctx)]; [done|].
      apply Hack in Hctx. rewrite Hctx.
      destruct Hc1 as [(_ & _ & ->)|([?|?] & _)]; try done.
      apply uncompressed_change_mode_mode.
  - intros Hmode.
    destruct Hcases as [(_ & _ & ->)|(Hok & c1 & Hc1 & Hctx)]; [done|].
    apply Hack in Hctx. rewrite Hctx in Hmode |- *.
    destruct Hc1 as [(_ & -> & ->)|(_ & ->)]; [|done].
    rewrite uncompressed_change_mode_mode. destruct Hok; done.
Qed.

(** C6, as amended.  A FEEDBACK-2 with the acknowledgement type NACK has no
    effect of its own: the context is left as it was unless a CRC-protected
    mode change is applied, and then the state is set to IR; in no case is
    the state set to FO. *)
Theorem feedback2_nack_keeps_state context feedback context' data' :
  type feedback = 2 →
  acktype feedback = NACK →
  c_uncompressed_feedback crc_calculate context feedback
    = Some (context', data') →
  (mode context' = mode context → context' = context)
  ∧ (mode context' ≠ mode context → state context' = IR)
  ∧ (state context' = FO → state context = FO).
Proof.
  intros Htype Hack Hrun.
  destruct (deliver_feedback2_Some _ _ _ _ Htype Hrun)
    as (b & crc & used & _ & _ & Hcases).
  rewrite Hack in Hcases.
  assert (context' = context
          ∨ context' = uncompressed_change_mode context
                         (Z.land (Z.shiftr b 4) 3)) as [->| ->].
  { destruct Hcases as [(_ & _ & ->)|(_ & c1 & Hc1 & ->)]; [by left|].
    destruct Hc1 as [(_ & _ & ->)|(_ & ->)]; auto. }
  { done. }
  rewrite uncompressed_change_mode_mode.
  destruct (decide (Z.land (Z.shiftr b 4) 3 = mode context)) as [Heq|Hne].
  - rewrite Heq, uncompressed_change_mode_same. done.
  - rewrite uncompressed_change_mode_state by done. done.
Qed.

(** C7, as amended.  An accepted FEEDBACK-2 with the acknowledgement type
    STATIC-NACK sets the state to IR.  The counters are reset only when the
    state changes, so the next packet is an IR packet provided the context
    was not already in the IR state with [ir_count] at [MAX_IR_COUNT]. *)
Theorem feedback2_static_nack_forces_ir context feedback context' data'
    crc_in_packet is_crc_used :
  type feedback = 2 →
  acktype feedback = STATIC_NACK →
  feedback_options (Z.to_nat (specific_size feedback - 2))
    (data feedback) (specific_offset feedback + 2)
    (specific_size feedback - 2) 0 false
  = Some (data', crc_in_packet, is_crc_used) →
  is_crc_used = false ∨ crc_in_packet = crc_calculate data' →
  c_uncompressed_feedback crc_calculate context feedback
    = Some (context', data') →
  state context' = IR
  ∧ (0 < MAX_IR_COUNT →
     state context ≠ IR ∨ ir_count (specific context) < MAX_IR_COUNT →
     ∀ ip packet_size dest dest_size payload_offset r,
       encode context' ip packet_size dest dest_size payload_offset
         = Some r →
       packet_type_out r = PACKET_IR ∧ state (ctxt_out r) = IR).
Proof.
  intros Htype Hack Hopts Hok Hrun.
  destruct (deliver_feedback2_Some _ _ _ _ Htype Hrun)
    as (b & crc & used & _ & Hopts' & Hcases).
  rewrite Hopts in Hopts'. injection Hopts' as <- <-.
  rewrite Hack in Hcases.
  destruct Hcases as [(-> & Hbad & _)|(_ & c1 & Hc1 & ->)].
  { destruct Hok; done. }
  split; [apply uncompressed_change_state_state|].
  intros Hmax Hpre ip packet_size dest dest_size payload_offset r Hr.
  apply encode_Some in Hr as (Hs & _ & _ & Ht).
  set (c2 := uncompressed_change_state c1 IR) in *.
  assert (state c2 = IR) as Hc2 by apply uncompressed_change_state_state.
  assert (ir_count (specific c2) < MAX_IR_COUNT) as Hcount.
  { subst c2. clear Hc2 Hs Ht.
    destruct context as [? ? st md [irc nc gb]]. simpl in Hpre.
    destruct Hc1 as [(_ & _ & ->)|(_ & ->)];
      unfold uncompressed_change_mode, uncompressed_change_state;
      destruct st; state_cases; destruct Hpre; done || lia. }
  assert (state (decide_state c2) = IR) as Hdec.
  { destruct c2 as [? ? st ? []]. simpl in *. subst st.
    unfold uncompressed_decide_state, uncompressed_periodic_down_transition,
      uncompressed_change_state.
    state_cases. }
  rewrite Hs, Ht, Hdec. done.
Qed.

(** Whatever [MAX_IR_COUNT] is: a STATIC-NACK delivered to a context that
    is in the IR state does not touch the counters, so when [ir_count] has
    reached [MAX_IR_COUNT] and no periodic refresh is due, the next encode
    call emits a Normal packet. *)
Lemma static_nack_in_ir_keeps_counters context feedback context' data'
    ip packet_size dest dest_size payload_offset r :
  type feedback = 2 →
  acktype feedback = STATIC_NACK →
  c_uncompressed_feedback crc_calculate context feedback
    = Some (context', data') →
  mode context' = mode context →
  state context = IR →
  MAX_IR_COUNT ≤ ir_count (specific context) →
  ¬ (mode context = U_MODE
     ∧ periodic_refreshes_ir_timeout (compressor context)
       ≤ go_back_ir_count (specific context)) →
  encode context' ip packet_size dest dest_size payload_offset = Some r →
  context' = context ∧ packet_type_out r = PACKET_NORMAL.
Proof.
  intros Htype Hack Hrun Hmode Hstate Hmax Hnot Hr.
  destruct (deliver_feedback2_Some _ _ _ _ Htype Hrun)
    as (b & crc & used & _ & _ & Hcases).
  rewrite Hack in Hcases.
  pose proof (uncompressed_change_state_same context) as Hsame.
  rewrite Hstate in Hsame.
  assert (context' = context) as ->.
  { destruct Hcases as [(_ & _ & ->)|(_ & c1 & Hc1 & ->)]; [done|].
    destruct Hc1 as [(_ & _ & ->)|(_ & ->)].
    - destruct (uncompressed_change_state_frame
                  (uncompressed_change_mode context
                     (Z.land (Z.shiftr b 4) 3)) IR) as [Hm _].
      rewrite Hm, uncompressed_change_mode_mode in Hmode.
      by rewrite Hmode, uncompressed_change_mode_same.
    - done. }
  split; [done|].
  apply encode_Some in Hr as (_ & _ & _ & ->).
  destruct context as [? ? st ? []]. simpl in *. subst st.
  unfold uncompressed_decide_state, uncompressed_periodic_down_transition,
    uncompressed_change_state.
  state_cases.
Qed.

(** C9.  The handler writes into the feedback packet it is given.  The
    octets it returns are those the option loop left: the same number of
    octets, each either untouched or zero; they are the original octets
    when no CRC option was met; when one was met, the value octet of the
    last one, which held [crc_in_packet], now holds zero, on every path out
    of the handler, so the packet differs from the one passed in as soon
    as that value was not zero.

    The loop meets a CRC option exactly when the feedback as received
    carries one ([feedback2_crc_options]): a feedback that carries none is
    returned as it was, and the value octet of the first CRC option
    carried is zero in the octets returned.  When every CRC option carried
    has a value, the octets returned are the feedback with the value octet
    of each of its CRC options zeroed ([spec_zero_crc]), so the packet
    differs from the one passed in as soon as one of these values was not
    zero. *)
Theorem feedback2_crc_option_zeroed context feedback context' data' :
  type feedback = 2 →
  c_uncompressed_feedback crc_calculate context feedback
    = Some (context', data') →
  ∃ crc_in_packet is_crc_used,
    feedback_options (Z.to_nat (specific_size feedback - 2))
      (data feedback) (specific_offset feedback + 2)
      (specific_size feedback - 2) 0 false
    = Some (data', crc_in_packet, is_crc_used)
    ∧ length data' = length (data feedback)
    ∧ (∀ j, load data' j = load (data feedback) j ∨ load data' j = Some 0)
    ∧ (is_crc_used = false → data' = data feedback)
    ∧ (is_crc_used = true →
       ∃ i o, specific_offset feedback + 2 ≤ i
              ∧ load (data feedback) i = Some o ∧ Z.shiftr o 4 = 1
              ∧ load (data feedback) (i + 1) = Some crc_in_packet
              ∧ load data' (i + 1) = Some 0
              ∧ (crc_in_packet ≠ 0 → data' ≠ data feedback))
    ∧ (is_crc_used = true ↔ feedback2_crc_options feedback ≠ [])
    ∧ (feedback2_crc_options feedback = [] → data' = data feedback)
    ∧ (∀ i, head (feedback2_crc_options feedback) = Some i →
            load data' (i + 1) = Some 0)
    ∧ (Forall (λ i, crc_option_has_value (data feedback) i = true)
         (feedback2_crc_options feedback) →
       data' = spec_zero_crc (data feedback) (feedback2_crc_options feedback)
       ∧ (∀ i, i ∈ feedback2_crc_options feedback →
               load data' (i + 1) = Some 0)
       ∧ (∀ i v, i ∈ feedback2_crc_options feedback →
                 load (data feedback) (i + 1) = Some v → v ≠ 0 →
                 data' ≠ data feedback)).
Proof.
  intros Htype Hrun.
  destruct (deliver_feedback2_Some _ _ _ _ Htype Hrun)
    as (b & crc & used & _ & Hopts & _).
  exists crc, used. split; [done|].
  destruct (feedback_options_inv _ _ _ _ _ _ _ _ _ Hopts)
    as (Hlen & _ & Hzero & Hcrc).
  destruct (feedback2_options_carried _ _ _ _ Hopts)
    as (Hcarried & Hnone & Hhead & Hwf).
  split_and!; try done.
  3: { intros Hall. destruct (Hwf Hall) as (Hdata & Hzeros & _).
       split_and!; try done.
       intros i v Hi Hv Hnz Heq. apply Hzeros in Hi.
       rewrite Heq, Hv in Hi. by injection Hi. }
  - intros ->. destruct Hcrc as [(_ & _ & ?)|(? & _)]; done.
  - intros ->.
    destruct Hcrc as [(? & _)|(_ & i & o & Hi & Ho & Hopt & Hv & Hz)];
      [done|].
    exists i, o. split_and!; try done.
    intros Hnz Heq. rewrite Heq, Hv in Hz. by injection Hz.
Qed.

(** *** The IR packet *)

(** The IR packet builder returns whenever the three positions it writes
    belong to the buffer. *)
Lemma uncompressed_code_IR_packet_returns context ip dest dest_size
    counter first_position (d0 : list Z) :
  code_cid_values (medium_cid_type (compressor context)) (cid context)
    dest dest_size = Some (counter, first_position, d0) →
  0 ≤ first_position < Z.of_nat (length d0) →
  0 ≤ counter →
  counter + 1 < Z.of_nat (length d0) →
  is_Some (uncompressed_code_IR_packet crc_calculate code_cid_values
             context ip dest dest_size).
Proof.
  intros Hcid Hfp Hlo Hhi. unfold uncompressed_code_IR_packet.
  rewrite Hcid. simpl.
  rewrite store_in_range by done. simpl.
  rewrite store_in_range by (rewrite length_insert; lia). simpl.
  rewrite store_in_range by (rewrite !length_insert; lia). simpl.
  rewrite store_in_range by (rewrite !length_insert; lia). done.
Qed.

(** C8, as amended.  In an IR packet the discriminator 0xFC is at the
    position [code_cid_values] reports for the first octet of the packet,
    which with small CIDs follows the Add-CID octet and with large CIDs
    precedes the CID octets; the profile octet 0x00 is at the position
    [code_cid_values] returns and the next octet is the CRC-8 of all
    octets up to and including itself, computed with that octet zeroed;
    every other octet is as [code_cid_values] left it; the length returned
    ends after the CRC and the payload offset is 0. *)
Theorem uncompressed_ir_packet_layout context ip dest dest_size
    counter first_position (d0 : list Z) n (dest' : list Z) payload_offset :
  code_cid_values (medium_cid_type (compressor context)) (cid context)
    dest dest_size = Some (counter, first_position, d0) →
  first_position < counter →
  uncompressed_code_IR_packet crc_calculate code_cid_values context ip
    dest dest_size = Some (n, dest', payload_offset) →
  n = counter + 2
  ∧ payload_offset = 0
  ∧ length dest' = length d0
  ∧ load dest' first_position = Some 0xfc
  ∧ load dest' counter = Some 0x00
  ∧ load dest' (counter + 1)
    = Some (crc_calculate
              (take (Z.to_nat n) (<[Z.to_nat (counter + 1) := 0]> dest'))
            mod 256)
  ∧ (∀ j, j ≠ first_position → j ≠ counter → j ≠ counter + 1 →
          load dest' j = load d0 j).
Proof.
  intros Hcid Hfp. unfold uncompressed_code_IR_packet.
  rewrite Hcid. simpl.
  destruct (store d0 first_position 252) as [d1|] eqn:H1; [|done]. simpl.
  destruct (store d1 counter ROHC_PROFILE_UNCOMPRESSED) as [d2|] eqn:H2;
    [|done]. simpl.
  destruct (store d2 (counter + 1) 0) as [d3|] eqn:H3; [|done]. simpl.
  destruct (store d3 (counter + 1) _) as [d4|] eqn:H4; [|done]. simpl.
  intros [= <- <- <-].
  pose proof (store_length _ _ _ _ H1) as L1.
  pose proof (store_length _ _ _ _ H2) as L2.
  pose proof (store_length _ _ _ _ H3) as L3.
  pose proof (store_length _ _ _ _ H4) as L4.
  split_and!.
  - lia.
  - done.
  - congruence.
  - rewrite (load_store_ne _ _ _ _ _ H4) by lia.
    rewrite (load_store_ne _ _ _ _ _ H3) by lia.
    rewrite (load_store_ne _ _ _ _ _ H2) by lia.
    by apply (load_store_eq _ _ _ _ H1).
  - rewrite (load_store_ne _ _ _ _ _ H4) by lia.
    rewrite (load_store_ne _ _ _ _ _ H3) by lia.
    by apply (load_store_eq _ _ _ _ H2).
  - rewrite (load_store_eq _ _ _ _ H4). do 4 f_equal.
    apply store_Some_inv in H4 as [_ ->].
    rewrite list_insert_insert_eq.
    apply store_Some_inv in H3 as [_ ->].
    by rewrite list_insert_insert_eq.
  - intros j Hj1 Hj2 Hj3.
    rewrite (load_store_ne _ _ _ _ _ H4) by lia.
    rewrite (load_store_ne _ _ _ _ _ H3) by lia.
    rewrite (load_store_ne _ _ _ _ _ H2) by lia.
    by rewrite (load_store_ne _ _ _ _ _ H1) by lia.
Qed.

Lemma take_insert3 (l : list Z) (k : nat) a b c :
  (k + 3 ≤ length l)%nat →
  take (k + 3) (<[(k + 2)%nat := c]> (<[(k + 1)%nat := b]> (<[k := a]> l)))
  = take k l ++ [a; b; c].
Proof.
  revert l. induction k as [|k IH]; intros l Hl.
  - destruct l as [|x [|y [|z l]]]; simpl in Hl; try lia. done.
  - destruct l as [|x l]; simpl in Hl; [lia|].
    simpl. f_equal. apply IH. lia.
Qed.

(** When the first octet of the packet is the last octet
    [code_cid_values] accounts for, as with small CIDs, the packet is the
    octets before it, then 0xFC, the profile octet and the CRC-8. *)
Lemma uncompressed_ir_packet_small_cid context ip dest dest_size
    counter first_position (d0 : list Z) n (dest' : list Z) payload_offset :
  code_cid_values (medium_cid_type (compressor context)) (cid context)
    dest dest_size = Some (counter, first_position, d0) →
  counter = first_position + 1 →
  uncompressed_code_IR_packet crc_calculate code_cid_values context ip
    dest dest_size = Some (n, dest', payload_offset) →
  take (Z.to_nat n) dest'
  = take (Z.to_nat first_position) d0
    ++ [0xfc; 0x00;
        crc_calculate (take (Z.to_nat first_position) d0 ++ [0xfc; 0; 0])
        mod 256].
Proof.
  intros Hcid ->. unfold uncompressed_code_IR_packet.
  rewrite Hcid. simpl.
  destruct (store d0 first_position 252) as [d1|] eqn:H1; [|done]. simpl.
  destruct (store d1 _ ROHC_PROFILE_UNCOMPRESSED) as [d2|] eqn:H2;
    [|done]. simpl.
  destruct (store d2 _ 0) as [d3|] eqn:H3; [|done]. simpl.
  destruct (store d3 _ _) as [d4|] eqn:H4; [|done]. simpl.
  intros [= <- <- <-].
  apply store_Some_inv in H4 as [_ ->].
  apply store_Some_inv in H3 as [Hin3 ->].
  apply store_Some_inv in H2 as [_ ->].
  apply store_Some_inv in H1 as [Hin1 ->].
  rewrite !length_insert in Hin3.
  rewrite list_insert_insert_eq.
  replace (Z.to_nat (first_position + 1 + 1 + 1))
    with (Z.to_nat first_position + 3)%nat by lia.
  replace (Z.to_nat (first_position + 1 + 1))
    with (Z.to_nat first_position + 2)%nat by lia.
  replace (Z.to_nat (first_position + 1))
    with (Z.to_nat first_position + 1)%nat by lia.
  rewrite !take_insert3 by lia. done.
Qed.

(** *** States and periodic refreshes *)

(** In U-mode and in the FO state, every encode call that succeeds counts
    one packet in [go_back_ir_count] until the timeout is reached; the call
    after that sets the state to IR and emits an IR packet. *)
Lemma encode_counts_towards_refresh context ip packet_size dest dest_size
    payload_offset r :
  mode context = U_MODE →
  state context = FO →
  - 2 ^ 31 ≤ go_back_ir_count (specific context) →
  periodic_refreshes_ir_timeout (compressor context) < 2 ^ 31 →
  encode context ip packet_size dest dest_size payload_offset = Some r →
  mode (ctxt_out r) = U_MODE
  ∧ if decide (go_back_ir_count (specific context)
               < periodic_refreshes_ir_timeout (compressor context))
    then state (ctxt_out r) = FO
         ∧ packet_type_out r = PACKET_NORMAL
         ∧ go_back_ir_count (specific (ctxt_out r))
           = go_back_ir_count (specific context) + 1
    else state (ctxt_out r) = IR
         ∧ packet_type_out r = PACKET_IR
         ∧ go_back_ir_count (specific (ctxt_out r)) = 0.
Proof.
  intros Hmode Hstate Hlo Hhi Hr.
  apply encode_Some in Hr as (Hs & Hm & Hg & Ht).
  rewrite Hs, Hm, Hg, Ht. split; [done|]. clear Hs Hm Hg Ht r.
  destruct context as [? ? st ? []]. simpl in *. subst.
  unfold uncompressed_decide_state, uncompressed_periodic_down_transition,
    uncompressed_change_state.
  state_cases; rewrite ?int_wrap_id by lia; done.
Qed.

(** *** Runs of encode calls *)

(** The context an encode call leaves: the context decided for the
    packet, with the counter of the packet type one up. *)
Lemma encode_Some_context context ip packet_size dest dest_size
    payload_offset r :
  encode context ip packet_size dest dest_size payload_offset = Some r →
  ctxt_out r =
    set_specific (decide_state context)
      (match state (decide_state context) with
       | IR =>
           mk_sc_uncompressed_context
             (int_wrap (ir_count (specific (decide_state context)) + 1))
             (normal_count (specific (decide_state context)))
             (go_back_ir_count (specific (decide_state context)))
       | FO =>
           mk_sc_uncompressed_context
             (ir_count (specific (decide_state context)))
             (int_wrap (normal_count (specific (decide_state context)) + 1))
             (go_back_ir_count (specific (decide_state context)))
       | SO => specific (decide_state context)
       end).
Proof.
  unfold c_uncompressed_encode, uncompressed_code_packet.
  destruct (decide_state context) as [? ? st ? []]; simpl.
  destruct st; simpl.
  - destruct (uncompressed_code_IR_packet _ _ _ _ _ _) as [[[]]|];
      [|done].
    simpl. by intros [= <-].
  - destruct (uncompressed_code_normal_packet _ _ _ _ _) as [[[]]|];
      [|done].
    simpl. by intros [= <-].
  - by intros [= <-].
Qed.

(** One packet in the IR state before [ir_count] has reached
    [MAX_IR_COUNT]. *)
Lemma encode_step_ir context ip packet_size dest dest_size payload_offset r :
  state context = IR →
  - 2 ^ 31 ≤ ir_count (specific context) < MAX_IR_COUNT →
  MAX_IR_COUNT < 2 ^ 31 →
  encode context ip packet_size dest dest_size payload_offset = Some r →
  packet_type_out r = PACKET_IR
  ∧ state (ctxt_out r) = IR
  ∧ mode (ctxt_out r) = mode context
  ∧ compressor (ctxt_out r) = compressor context
  ∧ ir_count (specific (ctxt_out r)) = ir_count (specific context) + 1
  ∧ (go_back_ir_count (specific context)
       < periodic_refreshes_ir_timeout (compressor context) →
     go_back_ir_count (specific (ctxt_out r))
     = go_back_ir_count (specific context)).
Proof.
  intros Hstate Hcount Hmax Hr.
  pose proof (encode_Some_context _ _ _ _ _ _ _ Hr) as Hctx.
  apply encode_Some in Hr as (_ & _ & _ & Ht).
  rewrite Ht, Hctx. clear Ht Hctx r.
  destruct context as [? ? st ? []]. simpl in *. subst st.
  unfold uncompressed_decide_state, uncompressed_periodic_down_transition,
    uncompressed_change_state.
  state_cases; rewrite ?int_wrap_id by lia; split_and!; done || lia.
Qed.

(** The packet after [ir_count] has reached [MAX_IR_COUNT], when no
    periodic refresh is due. *)
Lemma encode_step_ir_to_fo context ip packet_size dest dest_size
    payload_offset r :
  state context = IR →
  MAX_IR_COUNT ≤ ir_count (specific context) →
  ¬ (mode context = U_MODE
     ∧ periodic_refreshes_ir_timeout (compressor context)
       ≤ go_back_ir_count (specific context)) →
  encode context ip packet_size dest dest_size payload_offset = Some r →
  packet_type_out r = PACKET_NORMAL
  ∧ state (ctxt_out r) = FO
  ∧ mode (ctxt_out r) = mode context
  ∧ compressor (ctxt_out r) = compressor context
  ∧ ir_count (specific (ctxt_out r)) = 0
  ∧ go_back_ir_count (specific (ctxt_out r))
    = if decide (mode context = U_MODE)
      then int_wrap (go_back_ir_count (specific context) + 1)
      else go_back_ir_count (specific context).
Proof.
  intros Hstate Hcount Hnot Hr.
  pose proof (encode_Some_context _ _ _ _ _ _ _ Hr) as Hctx.
  apply encode_Some in Hr as (_ & _ & _ & Ht).
  rewrite Ht, Hctx. clear Ht Hctx r.
  destruct context as [? ? st ? []]. simpl in *. subst st.
  unfold uncompressed_decide_state, uncompressed_periodic_down_transition,
    uncompressed_change_state.
  state_cases.
Qed.

(** One packet in the FO state, when no periodic refresh is due. *)
Lemma encode_step_fo context ip packet_size dest dest_size payload_offset r :
  state context = FO →
  ¬ (mode context = U_MODE
     ∧ periodic_refreshes_ir_timeout (compressor context)
       ≤ go_back_ir_count (specific context)) →
  encode context ip packet_size dest dest_size payload_offset = Some r →
  packet_type_out r = PACKET_NORMAL
  ∧ state (ctxt_out r) = FO
  ∧ mode (ctxt_out r) = mode context
  ∧ compressor (ctxt_out r) = compressor context
  ∧ ir_count (specific (ctxt_out r)) = ir_count (specific context)
  ∧ go_back_ir_count (specific (ctxt_out r))
    = if decide (mode context = U_MODE)
      then int_wrap (go_back_ir_count (specific context) + 1)
      else go_back_ir_count (specific context).
Proof.
  intros Hstate Hnot Hr.
  pose proof (encode_Some_context _ _ _ _ _ _ _ Hr) as Hctx.
  apply encode_Some in Hr as (_ & _ & _ & Ht).
  rewrite Ht, Hctx. clear Ht Hctx r.
  destruct context as [? ? st ? []]. simpl in *. subst st.
  unfold uncompressed_decide_state, uncompressed_periodic_down_transition,
    uncompressed_change_state.
  state_cases.
Qed.

(** The packet for which a periodic refresh is due, in U-mode. *)
Lemma encode_step_refresh context ip packet_size dest dest_size
    payload_offset r :
  mode context = U_MODE →
  periodic_refreshes_ir_timeout (compressor context)
    ≤ go_back_ir_count (specific context) →
  encode context ip packet_size dest dest_size payload_offset = Some r →
  packet_type_out r = PACKET_IR
  ∧ state (ctxt_out r) = IR
  ∧ mode (ctxt_out r) = mode context
  ∧ compressor (ctxt_out r) = compressor context
  ∧ go_back_ir_count (specific (ctxt_out r)) = 0.
Proof.
  intros Hmode Hdue Hr.
  pose proof (encode_Some_context _ _ _ _ _ _ _ Hr) as Hctx.
  apply encode_Some in Hr as (_ & _ & _ & Ht).
  rewrite Ht, Hctx. clear Ht Hctx r.
  destruct context as [? ? st ? []]. simpl in *.
  unfold uncompressed_decide_state, uncompressed_periodic_down_transition,
    uncompressed_change_state.
  destruct st; state_cases.
Qed.

Local Abbreviation run :=
  (encode_run MAX_IR_COUNT U_MODE crc_calculate code_cid_values).

Lemma encode_run_split (n : nat) :
  ∀ context types context',
    run context types context' →
    ∃ c1, run context (take n types) c1 ∧ run c1 (drop n types) context'.
Proof.
  induction n as [|n IH]; intros context types context' Hrun.
  { exists context. split; [constructor|]. by rewrite drop_0. }
  destruct Hrun as [c|c ip ps dest ds off r types c' Hstep Hrun].
  { exists c. split; constructor. }
  destruct (IH _ _ _ Hrun) as (c1 & H1 & H2).
  exists c1. split; [|done]. simpl. by econstructor.
Qed.

(** X6.  In the IR state, as long as [ir_count] stays within
    [MAX_IR_COUNT], every packet of a run is an IR packet, the state stays
    IR and [ir_count] counts the packets; a [go_back_ir_count] below the
    refresh timeout is not touched. *)
Theorem encode_run_ir_phase context types context' :
  encode_run MAX_IR_COUNT U_MODE crc_calculate code_cid_values context
    types context' →
  state context = IR →
  0 ≤ ir_count (specific context) →
  ir_count (specific context) + Z.of_nat (length types) ≤ MAX_IR_COUNT →
  MAX_IR_COUNT < 2 ^ 31 →
  types = replicate (length types) PACKET_IR
  ∧ state context' = IR
  ∧ mode context' = mode context
  ∧ compressor context' = compressor context
  ∧ ir_count (specific context')
    = ir_count (specific context) + Z.of_nat (length types)
  ∧ (go_back_ir_count (specific context)
       < periodic_refreshes_ir_timeout (compressor context) →
     go_back_ir_count (specific context')
     = go_back_ir_count (specific context)).
Proof.
  intros Hrun.
  induction Hrun as [c|c ip ps dest ds off r types c' Hstep Hrun IH];
    intros Hstate Hlo Hhi Hmax.
  { simpl. split_and!; done || lia. }
  simpl in Hhi.
  destruct (encode_step_ir _ _ _ _ _ _ _ Hstate ltac:(lia) Hmax Hstep)
    as (Ht & Hs & Hm & Hc & Hi & Hg).
  destruct (IH Hs ltac:(lia) ltac:(lia) Hmax)
    as (IHt & IHs & IHm & IHc & IHi & IHg).
  simpl. split_and!.
  - by rewrite Ht, <- IHt.
  - done.
  - congruence.
  - congruence.
  - lia.
  - intros Hgb. rewrite IHg; [by apply Hg|]. rewrite Hc, Hg; done.
Qed.

(** X7.  In U-mode and in the FO state, as long as [go_back_ir_count]
    stays within the refresh timeout, every packet of a run is a Normal
    packet, the state stays FO and [go_back_ir_count] counts the
    packets. *)
Theorem encode_run_fo_phase context types context' :
  encode_run MAX_IR_COUNT U_MODE crc_calculate code_cid_values context
    types context' →
  state context = FO →
  mode context = U_MODE →
  0 ≤ go_back_ir_count (specific context) →
  go_back_ir_count (specific context) + Z.of_nat (length types)
    ≤ periodic_refreshes_ir_timeout (compressor context) →
  periodic_refreshes_ir_timeout (compressor context) < 2 ^ 31 →
  types = replicate (length types) PACKET_NORMAL
  ∧ state context' = FO
  ∧ mode context' = U_MODE
  ∧ compressor context' = compressor context
  ∧ go_back_ir_count (specific context')
    = go_back_ir_count (specific context) + Z.of_nat (length types).
Proof.
  intros Hrun.
  induction Hrun as [c|c ip ps dest ds off r types c' Hstep Hrun IH];
    intros Hstate Hmode Hlo Hhi Hmax.
  { simpl. split_and!; done || lia. }
  simpl in Hhi.
  destruct (encode_step_fo _ _ _ _ _ _ _ Hstate ltac:(lia) Hstep)
    as (Ht & Hs & Hm & Hc & _ & Hg).
  rewrite decide_True, int_wrap_id in Hg by (done || lia).
  destruct (IH Hs ltac:(congruence) ltac:(lia)
              ltac:(rewrite Hc; lia) ltac:(rewrite Hc; lia))
    as (IHt & IHs & IHm & IHc & IHg).
  simpl. split_and!.
  - by rewrite Ht, <- IHt.
  - done.
  - done.
  - congruence.
  - lia.
Qed.

(** X8.  Outside U-mode nothing brings a context in the FO state back to
    IR: every packet of a run is a Normal packet and the state, the mode,
    [ir_count] and [go_back_ir_count] stay as they are. *)
Theorem encode_run_fo_forever context types context' :
  encode_run MAX_IR_COUNT U_MODE crc_calculate code_cid_values context
    types context' →
  state context = FO →
  mode context ≠ U_MODE →
  types = replicate (length types) PACKET_NORMAL
  ∧ state context' = FO
  ∧ mode context' = mode context
  ∧ ir_count (specific context') = ir_count (specific context)
  ∧ go_back_ir_count (specific context')
    = go_back_ir_count (specific context).
Proof.
  intros Hrun.
  induction Hrun as [c|c ip ps dest ds off r types c' Hstep Hrun IH];
    intros Hstate Hmode.
  { done. }
  destruct (encode_step_fo _ _ _ _ _ _ _ Hstate ltac:(tauto) Hstep)
    as (Ht & Hs & Hm & Hc & Hi & Hg).
  rewrite decide_False in Hg by done.
  destruct (IH Hs ltac:(congruence)) as (IHt & IHs & IHm & IHi & IHg).
  simpl. split_and!; [by rewrite Ht, <- IHt | congruence..].
Qed.

Lemma encode_run_cons_inv context t types context' :
  run context (t :: types) context' →
  ∃ ip packet_size dest dest_size payload_offset r,
    encode context ip packet_size dest dest_size payload_offset = Some r
    ∧ t = packet_type_out r
    ∧ run (ctxt_out r) types context'.
Proof. inversion 1; subst. eauto 10. Qed.

Lemma encode_run_nil_inv context context' :
  run context [] context' → context' = context.
Proof. by inversion 1. Qed.

(** In U-mode, from the FO state, the Normal packets that are left before
    the refresh, then the IR packet of the refresh. *)
Lemma encode_run_until_refresh context types context' :
  run context types context' →
  state context = FO →
  mode context = U_MODE →
  0 ≤ go_back_ir_count (specific context)
    ≤ periodic_refreshes_ir_timeout (compressor context) →
  periodic_refreshes_ir_timeout (compressor context) < 2 ^ 31 →
  Z.of_nat (length types)
  = periodic_refreshes_ir_timeout (compressor context)
    - go_back_ir_count (specific context) + 1 →
  types = replicate (length types - 1) PACKET_NORMAL ++ [PACKET_IR]
  ∧ state context' = IR
  ∧ go_back_ir_count (specific context') = 0.
Proof.
  intros Hrun Hstate Hmode Hgb Hmax Hlen.
  destruct (encode_run_split (length types - 1) _ _ _ Hrun)
    as (c1 & H1 & H2).
  assert (length (take (length types - 1) types) = (length types - 1)%nat)
    as Htake by (rewrite length_take; lia).
  destruct (encode_run_fo_phase _ _ _ H1 Hstate Hmode ltac:(lia)
              ltac:(lia) Hmax) as (Ht & Hs & Hm & Hc & Hg).
  rewrite Htake in Ht, Hg.
  assert (length (drop (length types - 1) types) = 1%nat) as Hdrop
    by (rewrite length_drop; lia).
  destruct (drop (length types - 1) types) as [|t [|? ?]] eqn:Hd;
    try done.
  apply encode_run_cons_inv in H2
    as (ip & ps & dest & ds & off & r & Hstep & -> & Hnil).
  apply encode_run_nil_inv in Hnil as ->.
  destruct (encode_step_refresh _ _ _ _ _ _ _ Hm
              ltac:(rewrite Hc; lia) Hstep) as (Hrt & Hrs & _ & _ & Hrg).
  split_and!; [|done|done].
  rewrite <- (take_drop (length types - 1) types) at 1.
  by rewrite Ht, Hd, Hrt.
Qed.

(** The refresh of a context in the FO state leaves [ir_count] at 1: the
    change of state resets it and the IR packet is counted. *)
Lemma encode_step_refresh_from_fo context ip packet_size dest dest_size
    payload_offset r :
  state context = FO →
  mode context = U_MODE →
  periodic_refreshes_ir_timeout (compressor context)
    ≤ go_back_ir_count (specific context) →
  encode context ip packet_size dest dest_size payload_offset = Some r →
  ir_count (specific (ctxt_out r)) = 1.
Proof.
  intros Hstate Hmode Hdue Hr.
  pose proof (encode_Some_context _ _ _ _ _ _ _ Hr) as Hctx.
  rewrite Hctx. clear Hctx Hr r.
  destruct context as [? ? st ? []]. simpl in *. subst st.
  unfold uncompressed_decide_state, uncompressed_periodic_down_transition,
    uncompressed_change_state.
  state_cases.
Qed.

(** From the IR state, when no periodic refresh is due: the IR packets
    that are left before [ir_count] reaches [MAX_IR_COUNT], then the
    Normal packet of the move to FO. *)
Lemma encode_run_ir_then_fo context types context' :
  run context types context' →
  state context = IR →
  - 2 ^ 31 ≤ ir_count (specific context) ≤ MAX_IR_COUNT →
  MAX_IR_COUNT < 2 ^ 31 →
  ¬ (mode context = U_MODE
     ∧ periodic_refreshes_ir_timeout (compressor context)
       ≤ go_back_ir_count (specific context)) →
  Z.of_nat (length types) = MAX_IR_COUNT - ir_count (specific context) + 1 →
  types = replicate (Z.to_nat (MAX_IR_COUNT - ir_count (specific context)))
            PACKET_IR
          ++ [PACKET_NORMAL]
  ∧ state context' = FO
  ∧ mode context' = mode context
  ∧ compressor context' = compressor context
  ∧ ir_count (specific context') = 0
  ∧ (mode context = U_MODE →
     go_back_ir_count (specific context')
     = int_wrap (go_back_ir_count (specific context) + 1)).
Proof.
  intros Hrun.
  induction Hrun as [c|c ip ps dest ds off r types c' Hstep Hrun IH];
    intros Hstate Hcount Hmax Hnot Hlen.
  { simpl in Hlen. lia. }
  simpl in Hlen.
  destruct (decide (ir_count (specific c) < MAX_IR_COUNT)) as [Hlt|Hge].
  - destruct (encode_step_ir _ _ _ _ _ _ _ Hstate ltac:(lia) Hmax Hstep)
      as (Ht & Hs & Hm & Hc & Hi & Hg).
    assert (mode c = U_MODE →
            go_back_ir_count (specific c)
            < periodic_refreshes_ir_timeout (compressor c)) as Hfree.
    { intros Hu.
      destruct (Z.lt_ge_cases (go_back_ir_count (specific c))
                  (periodic_refreshes_ir_timeout (compressor c)));
        [done|tauto]. }
    destruct (IH Hs ltac:(lia) Hmax) as (IHt & IHs & IHm & IHc & IHi & IHg).
    { rewrite Hm, Hc. intros [Hu Hdue].
      rewrite Hg in Hdue by auto. tauto. }
    { lia. }
    split_and!.
    + rewrite Ht, IHt, Hi.
      replace (Z.to_nat (MAX_IR_COUNT - ir_count (specific c)))
        with (S (Z.to_nat (MAX_IR_COUNT - (ir_count (specific c) + 1))))
        by lia.
      done.
    + done.
    + congruence.
    + congruence.
    + done.
    + intros Hu. rewrite IHg by congruence. by rewrite Hg by auto.
  - destruct types as [|? ?]; [|simpl in Hlen; lia].
    apply encode_run_nil_inv in Hrun as ->.
    destruct (encode_step_ir_to_fo _ _ _ _ _ _ _ Hstate ltac:(lia) Hnot
                Hstep) as (Ht & Hs & Hm & Hc & Hi & Hg).
    replace (Z.to_nat (MAX_IR_COUNT - ir_count (specific c)))
      with 0%nat by lia.
    split_and!; try done.
    + by rewrite Ht.
    + intros Hu. by rewrite Hg, decide_True.
Qed.

(** In U-mode, from the FO state: the Normal packets that are left before
    [go_back_ir_count] reaches the refresh timeout, then the IR packet of
    the refresh. *)
Lemma encode_run_fo_then_ir context types context' :
  run context types context' →
  state context = FO →
  mode context = U_MODE →
  - 2 ^ 31 ≤ go_back_ir_count (specific context)
    ≤ periodic_refreshes_ir_timeout (compressor context) →
  periodic_refreshes_ir_timeout (compressor context) < 2 ^ 31 →
  Z.of_nat (length types)
  = periodic_refreshes_ir_timeout (compressor context)
    - go_back_ir_count (specific context) + 1 →
  types = replicate
            (Z.to_nat (periodic_refreshes_ir_timeout (compressor context)
                       - go_back_ir_count (specific context)))
            PACKET_NORMAL
          ++ [PACKET_IR]
  ∧ state context' = IR
  ∧ mode context' = U_MODE
  ∧ compressor context' = compressor context
  ∧ ir_count (specific context') = 1
  ∧ go_back_ir_count (specific context') = 0.
Proof.
  intros Hrun.
  induction Hrun as [c|c ip ps dest ds off r types c' Hstep Hrun IH];
    intros Hstate Hmode Hgb Hmax Hlen.
  { simpl in Hlen. lia. }
  simpl in Hlen.
  destruct (decide (go_back_ir_count (specific c)
                    < periodic_refreshes_ir_timeout (compressor c)))
    as [Hlt|Hge].
  - destruct (encode_step_fo _ _ _ _ _ _ _ Hstate ltac:(lia) Hstep)
      as (Ht & Hs & Hm & Hc & _ & Hg).
    rewrite decide_True, int_wrap_id in Hg by (done || lia).
    destruct (IH Hs ltac:(congruence) ltac:(rewrite Hc; lia)
                ltac:(rewrite Hc; lia) ltac:(rewrite Hc; lia))
      as (IHt & IHs & IHm & IHc & IHi & IHg).
    split_and!; try done; [|congruence].
    rewrite Ht, IHt, Hc, Hg.
    replace (Z.to_nat (periodic_refreshes_ir_timeout (compressor c)
                       - go_back_ir_count (specific c)))
      with (S (Z.to_nat (periodic_refreshes_ir_timeout (compressor c)
                         - (go_back_ir_count (specific c) + 1))))
      by lia.
    done.
  - destruct types as [|? ?]; [|simpl in Hlen; lia].
    apply encode_run_nil_inv in Hrun as ->.
    destruct (encode_step_refresh _ _ _ _ _ _ _ Hmode ltac:(lia) Hstep)
      as (Ht & Hs & Hm & Hc & Hg).
    pose proof (encode_step_refresh_from_fo _ _ _ _ _ _ _ Hstate Hmode
                  ltac:(lia) Hstep) as Hi.
    replace (Z.to_nat (periodic_refreshes_ir_timeout (compressor c)
                       - go_back_ir_count (specific c)))
      with 0%nat by lia.
    split_and!; try done; [by rewrite Ht|congruence].
Qed.

(** In U-mode, from the IR state with [go_back_ir_count] at 0: the IR
    packets, as many Normal packets as the refresh timeout says, and the
    IR packet of the refresh. *)
Lemma encode_run_cycle context types context' :
  run context types context' →
  state context = IR →
  mode context = U_MODE →
  - 2 ^ 31 ≤ ir_count (specific context) ≤ MAX_IR_COUNT →
  MAX_IR_COUNT < 2 ^ 31 →
  go_back_ir_count (specific context) = 0 →
  1 ≤ periodic_refreshes_ir_timeout (compressor context) < 2 ^ 31 →
  Z.of_nat (length types)
  = MAX_IR_COUNT - ir_count (specific context)
    + periodic_refreshes_ir_timeout (compressor context) + 1 →
  types = replicate (Z.to_nat (MAX_IR_COUNT - ir_count (specific context)))
            PACKET_IR
          ++ replicate
               (Z.to_nat (periodic_refreshes_ir_timeout (compressor context)))
               PACKET_NORMAL
          ++ [PACKET_IR]
  ∧ state context' = IR
  ∧ mode context' = U_MODE
  ∧ ir_count (specific context') = 1
  ∧ go_back_ir_count (specific context') = 0.
Proof.
  intros Hrun Hstate Hmode Hcount Hmax Hgb Htimeout Hlen.
  set (T := periodic_refreshes_ir_timeout (compressor context)) in *.
  set (n := Z.to_nat (MAX_IR_COUNT - ir_count (specific context))) in *.
  destruct (encode_run_split (S n) _ _ _ Hrun) as (c1 & H1 & H2).
  assert (length (take (S n) types) = S n) as Htake
    by (rewrite length_take; lia).
  destruct (encode_run_ir_then_fo _ _ _ H1 Hstate Hcount Hmax
              ltac:(fold T; lia) ltac:(rewrite Htake; lia))
    as (Ht & Hs & Hm & Hc & _ & Hg).
  specialize (Hg Hmode). rewrite Hgb in Hg.
  change (int_wrap (0 + 1)) with 1 in Hg.
  assert (Z.of_nat (length (drop (S n) types)) = T) as Hdrop
    by (rewrite length_drop; lia).
  destruct (encode_run_fo_then_ir _ _ _ H2 Hs ltac:(congruence)
              ltac:(rewrite Hc, Hg; fold T; lia)
              ltac:(rewrite Hc; fold T; lia)
              ltac:(rewrite Hc, Hg, Hdrop; fold T; lia))
    as (Ht2 & Hs2 & Hm2 & _ & Hi2 & Hg2).
  split_and!; try done.
  rewrite <- (take_drop (S n) types), Ht, Ht2, Hc, Hg. fold n T.
  rewrite <- app_assoc. f_equal.
  replace (Z.to_nat T) with (S (Z.to_nat (T - 1))) by lia.
  done.
Qed.

(** C4.  Neither the state decision of an encode call nor the feedback
    handler ever produces a state other than IR and FO, and the packet
    type follows the decided state.  From
    IR the state moves to FO once [ir_count] has reached [MAX_IR_COUNT],
    and stays IR before; in U-mode, [go_back_ir_count] reaching the
    periodic IR timeout resets the counter and sets the state to IR (this
    takes precedence over the move to FO); otherwise FO is kept and, in
    U-mode, [go_back_ir_count] goes up by one.

    An encode call counts the packet it emits: the context it leaves is
    the context decided for the packet with [ir_count] one up for an IR
    packet and [normal_count] one up for a Normal packet.  So, over the
    encode calls made one after the other on a context: from the IR state,
    when no periodic refresh is due, the packets are IR packets until
    [ir_count] has gone from its value to [MAX_IR_COUNT] ([MAX_IR_COUNT]
    of them from [ir_count] = 0), the next packet is a Normal packet and
    the state is then FO; in U-mode, from the FO state, the packets are
    Normal packets until [go_back_ir_count] has gone from its value to the
    refresh timeout (as many as the timeout says from 0), the next packet
    is an IR packet and the state is then IR with [go_back_ir_count] back
    at 0 and [ir_count] at 1; and in U-mode, from the IR state with
    [go_back_ir_count] at 0, the IR packets are followed by as many Normal
    packets as the timeout says and then by an IR packet, which leaves the
    context ready for the same cycle again. *)
Theorem uncompressed_state_machine context :
  (state context ≠ SO → state (decide_state context) ≠ SO)
  ∧ mode (decide_state context) = mode context
  ∧ (state context = IR →
     MAX_IR_COUNT ≤ ir_count (specific context) →
     ¬ (mode context = U_MODE
        ∧ periodic_refreshes_ir_timeout (compressor context)
          ≤ go_back_ir_count (specific context)) →
     state (decide_state context) = FO
     ∧ ir_count (specific (decide_state context)) = 0)
  ∧ (state context = IR →
     ir_count (specific context) < MAX_IR_COUNT →
     state (decide_state context) = IR)
  ∧ (mode context = U_MODE →
     periodic_refreshes_ir_timeout (compressor context)
       ≤ go_back_ir_count (specific context) →
     state (decide_state context) = IR
     ∧ go_back_ir_count (specific (decide_state context)) = 0)
  ∧ (state context = FO →
     ¬ (mode context = U_MODE
        ∧ periodic_refreshes_ir_timeout (compressor context)
          ≤ go_back_ir_count (specific context)) →
     state (decide_state context) = FO
     ∧ go_back_ir_count (specific (decide_state context))
       = if decide (mode context = U_MODE)
         then int_wrap (go_back_ir_count (specific context) + 1)
         else go_back_ir_count (specific context))
  ∧ (∀ ip packet_size dest dest_size payload_offset r,
       encode context ip packet_size dest dest_size payload_offset = Some r →
       state (ctxt_out r) = state (decide_state context)
       ∧ packet_type_out r =
           match state (decide_state context) with
           | IR => PACKET_IR
           | FO => PACKET_NORMAL
           | SO => PACKET_UNKNOWN
           end)
  ∧ (∀ feedback context' data',
       c_uncompressed_feedback crc_calculate context feedback
         = Some (context', data') →
       state context ≠ SO → state context' ≠ SO)
  ∧ (∀ ip packet_size dest dest_size payload_offset r,
       c_uncompressed_encode MAX_IR_COUNT U_MODE crc_calculate
         code_cid_values context ip packet_size dest dest_size
         payload_offset = Some r →
       ctxt_out r =
         set_specific (decide_state context)
           (match state (decide_state context) with
            | IR =>
                mk_sc_uncompressed_context
                  (int_wrap (ir_count (specific (decide_state context)) + 1))
                  (normal_count (specific (decide_state context)))
                  (go_back_ir_count (specific (decide_state context)))
            | FO =>
                mk_sc_uncompressed_context
                  (ir_count (specific (decide_state context)))
                  (int_wrap
                     (normal_count (specific (decide_state context)) + 1))
                  (go_back_ir_count (specific (decide_state context)))
            | SO => specific (decide_state context)
            end))
  ∧ (∀ types context',
       encode_run MAX_IR_COUNT U_MODE crc_calculate code_cid_values
         context types context' →
       state context = IR →
       - 2 ^ 31 ≤ ir_count (specific context) ≤ MAX_IR_COUNT →
       MAX_IR_COUNT < 2 ^ 31 →
       ¬ (mode context = U_MODE
          ∧ periodic_refreshes_ir_timeout (compressor context)
            ≤ go_back_ir_count (specific context)) →
       Z.of_nat (length types)
       = MAX_IR_COUNT - ir_count (specific context) + 1 →
       types = replicate
                 (Z.to_nat (MAX_IR_COUNT - ir_count (specific context)))
                 PACKET_IR
               ++ [PACKET_NORMAL]
       ∧ state context' = FO
       ∧ mode context' = mode context
       ∧ ir_count (specific context') = 0)
  ∧ (∀ types context',
       encode_run MAX_IR_COUNT U_MODE crc_calculate code_cid_values
         context types context' →
       state context = FO →
       mode context = U_MODE →
       - 2 ^ 31 ≤ go_back_ir_count (specific context)
         ≤ periodic_refreshes_ir_timeout (compressor context) →
       periodic_refreshes_ir_timeout (compressor context) < 2 ^ 31 →
       Z.of_nat (length types)
       = periodic_refreshes_ir_timeout (compressor context)
         - go_back_ir_count (specific context) + 1 →
       types = replicate
                 (Z.to_nat
                    (periodic_refreshes_ir_timeout (compressor context)
                     - go_back_ir_count (specific context)))
                 PACKET_NORMAL
               ++ [PACKET_IR]
       ∧ state context' = IR
       ∧ mode context' = U_MODE
       ∧ ir_count (specific context') = 1
       ∧ go_back_ir_count (specific context') = 0)
  ∧ (∀ types context',
       encode_run MAX_IR_COUNT U_MODE crc_calculate code_cid_values
         context types context' →
       state context = IR →
       mode context = U_MODE →
       - 2 ^ 31 ≤ ir_count (specific context) ≤ MAX_IR_COUNT →
       MAX_IR_COUNT < 2 ^ 31 →
       go_back_ir_count (specific context) = 0 →
       1 ≤ periodic_refreshes_ir_timeout (compressor context) < 2 ^ 31 →
       Z.of_nat (length types)
       = MAX_IR_COUNT - ir_count (specific context)
         + periodic_refreshes_ir_timeout (compressor context) + 1 →
       types = replicate
                 (Z.to_nat (MAX_IR_COUNT - ir_count (specific context)))
                 PACKET_IR
               ++ replicate
                    (Z.to_nat
                       (periodic_refreshes_ir_timeout (compressor context)))
                    PACKET_NORMAL
               ++ [PACKET_IR]
       ∧ state context' = IR
       ∧ mode context' = U_MODE
       ∧ ir_count (specific context') = 1
       ∧ go_back_ir_count (specific context') = 0).
Proof.
  split_and!.
  - destruct context as [? ? st ? []]. intros Hso.
    unfold uncompressed_decide_state, uncompressed_periodic_down_transition,
      uncompressed_change_state.
    destruct st; state_cases.
  - apply decide_state_frame.
  - destruct context as [? ? st ? []]. simpl. intros -> Hmax Hnot.
    unfold uncompressed_decide_state, uncompressed_periodic_down_transition,
      uncompressed_change_state.
    simpl in *. state_cases.
  - destruct context as [? ? st ? []]. simpl. intros -> Hmax.
    unfold uncompressed_decide_state, uncompressed_periodic_down_transition,
      uncompressed_change_state.
    simpl in *. state_cases.
  - destruct context as [? ? st ? []]. intros Hmode Hdue.
    unfold uncompressed_decide_state, uncompressed_periodic_down_transition,
      uncompressed_change_state.
    destruct st; simpl in *; state_cases.
  - destruct context as [? ? st ? []]. simpl. intros -> Hnot.
    unfold uncompressed_decide_state, uncompressed_periodic_down_transition,
      uncompressed_change_state.
    simpl in *. state_cases.
  - intros ip packet_size dest dest_size payload_offset r Hr.
    destruct (encode_Some _ _ _ _ _ _ _ Hr) as (? & _ & _ & ?). done.
  - intros feedback context' data' Hrun Hso.
    destruct (feedback_state_cases _ _ _ _ Hrun) as [->| ->]; done.
  - intros ip packet_size dest dest_size payload_offset r.
    apply encode_Some_context.
  - intros types context' Hrun Hstate Hcount Hmax Hnot Hlen.
    destruct (encode_run_ir_then_fo _ _ _ Hrun Hstate Hcount Hmax Hnot Hlen)
      as (? & ? & ? & _ & ? & _).
    done.
  - intros types context' Hrun Hstate Hmode Hgb Hmax Hlen.
    destruct (encode_run_fo_then_ir _ _ _ Hrun Hstate Hmode Hgb Hmax Hlen)
      as (? & ? & ? & _ & ? & ?).
    done.
  - intros types context' Hrun Hstate Hmode Hcount Hmax Hgb Htimeout Hlen.
    by apply (encode_run_cycle _ _ _ Hrun).
Qed.

(** X9.  The life of a context in U-mode.  A context created by
    [c_uncompressed_create] and put in the IR state emits [MAX_IR_COUNT]
    IR packets, then as many Normal packets as the refresh timeout says,
    then an IR packet again. *)
Theorem encode_run_refresh_cycle malloc_ok c0 ip0 context types context' :
  c_uncompressed_create malloc_ok c0 ip0 = (1, context) →
  state c0 = IR →
  mode c0 = U_MODE →
  1 ≤ MAX_IR_COUNT < 2 ^ 31 →
  1 ≤ periodic_refreshes_ir_timeout (compressor c0) < 2 ^ 31 →
  encode_run MAX_IR_COUNT U_MODE crc_calculate code_cid_values context
    types context' →
  length types
  = Z.to_nat (MAX_IR_COUNT + periodic_refreshes_ir_timeout (compressor c0)
              + 1) →
  types = replicate (Z.to_nat MAX_IR_COUNT) PACKET_IR
          ++ replicate
               (Z.to_nat (periodic_refreshes_ir_timeout (compressor c0)))
               PACKET_NORMAL
          ++ [PACKET_IR].
Proof.
  intros Hcreate Hstate Hmode Hmax Htimeout Hrun Hlen.
  unfold c_uncompressed_create in Hcreate.
  destruct malloc_ok; [|done]. injection Hcreate as <-.
  set (T := periodic_refreshes_ir_timeout (compressor c0)) in *.
  destruct (encode_run_split (Z.to_nat MAX_IR_COUNT) _ _ _ Hrun)
    as (c1 & H1 & H2).
  assert (length (take (Z.to_nat MAX_IR_COUNT) types)
          = Z.to_nat MAX_IR_COUNT) as Htake by (rewrite length_take; lia).
  destruct (encode_run_ir_phase _ _ _ H1 Hstate ltac:(simpl; lia)
              ltac:(simpl; lia) ltac:(lia))
    as (Ht & Hs & Hm & Hc & Hi & Hg).
  rewrite Htake in Ht, Hi. simpl in Hm, Hc, Hi, Hg.
  specialize (Hg ltac:(fold T; lia)).
  assert (length (drop (Z.to_nat MAX_IR_COUNT) types) = S (Z.to_nat T))
    as Hdrop by (rewrite length_drop; lia).
  destruct (drop (Z.to_nat MAX_IR_COUNT) types) as [|t rest] eqn:Hd;
    [done|].
  apply encode_run_cons_inv in H2
    as (ip & ps & dest & ds & off & r & Hstep & -> & Hrest).
  destruct (encode_step_ir_to_fo _ _ _ _ _ _ _ Hs ltac:(lia)
              ltac:(rewrite Hc, Hg; fold T; lia) Hstep)
    as (Hft & Hfs & Hfm & Hfc & _ & Hfg).
  rewrite decide_True, Hg, int_wrap_id in Hfg by (congruence || lia).
  simpl in Hdrop. injection Hdrop as Hdrop.
  destruct (encode_run_until_refresh _ _ _ Hrest Hfs ltac:(congruence)
              ltac:(rewrite Hfc, Hc, Hfg; fold T; lia)
              ltac:(rewrite Hfc, Hc; fold T; lia)
              ltac:(rewrite Hfc, Hc, Hfg; fold T; lia))
    as (Hrt & _ & _).
  rewrite <- (take_drop (Z.to_nat MAX_IR_COUNT) types), Ht, Hd, Hft, Hrt.
  rewrite Hdrop. f_equal.
  replace (Z.to_nat T) with (S (Z.to_nat T - 1)) at 2 by lia.
  done.
Qed.

(** *** What the counters and the handlers keep *)

(** X10.  With [MAX_IR_COUNT] at least 1, a context whose [ir_count] lies
    between 0 and [MAX_IR_COUNT] and whose [go_back_ir_count] lies between
    0 and the refresh timeout keeps these bounds through every encode call
    and every feedback: neither counter can overflow. *)
Theorem counters_stay_bounded context :
  1 ≤ MAX_IR_COUNT < 2 ^ 31 →
  periodic_refreshes_ir_timeout (compressor context) < 2 ^ 31 →
  0 ≤ ir_count (specific context) ≤ MAX_IR_COUNT →
  0 ≤ go_back_ir_count (specific context)
    ≤ periodic_refreshes_ir_timeout (compressor context) →
  (∀ ip packet_size dest dest_size payload_offset r,
     encode context ip packet_size dest dest_size payload_offset = Some r →
     compressor (ctxt_out r) = compressor context
     ∧ 0 ≤ ir_count (specific (ctxt_out r)) ≤ MAX_IR_COUNT
     ∧ 0 ≤ go_back_ir_count (specific (ctxt_out r))
         ≤ periodic_refreshes_ir_timeout (compressor context))
  ∧ (∀ feedback context' data',
       c_uncompressed_feedback crc_calculate context feedback
         = Some (context', data') →
       compressor context' = compressor context
       ∧ 0 ≤ ir_count (specific context') ≤ MAX_IR_COUNT
       ∧ go_back_ir_count (specific context')
         = go_back_ir_count (specific context)).
Proof.
  intros Hmax Htimeout Hir Hgb. split.
  - intros ip packet_size dest dest_size payload_offset r Hr.
    rewrite (encode_Some_context _ _ _ _ _ _ _ Hr). clear Hr r.
    destruct context as [? ? st ? []]. simpl in *.
    unfold uncompressed_decide_state, uncompressed_periodic_down_transition,
      uncompressed_change_state.
    destruct st; state_cases; rewrite ?int_wrap_id by lia;
      split_and!; done || lia.
  - intros feedback context' data' Hrun.
    destruct (decide (type feedback = 2)) as [Htype|Htype].
    + destruct (deliver_feedback2_Some _ _ _ _ Htype Hrun)
        as (b & crc & used & _ & _ & Hcases).
      assert (∃ c1, (c1 = context
                     ∨ c1 = uncompressed_change_mode context
                              (Z.land (Z.shiftr b 4) 3))
                    ∧ (context' = c1
                       ∨ context' = uncompressed_change_state c1 IR))
        as (c1 & Hc1 & Hc').
      { destruct Hcases as [(_ & _ & ->)|(_ & c1 & Hc1 & ->)];
          [exists context; auto|].
        exists c1. split; [destruct Hc1 as [(_ & _ & ->)|(_ & ->)]; auto|].
        destruct (acktype feedback); auto. }
      clear Hcases Hrun.
      destruct context as [? ? st md []]. simpl in *.
      unfold uncompressed_change_mode, uncompressed_change_state in *.
      destruct Hc1 as [->| ->], Hc' as [->| ->];
        destruct st; state_cases; split_and!; done || lia.
    + unfold c_uncompressed_feedback in Hrun.
      destruct (type feedback =? 1); [injection Hrun as <- _; done|].
      destruct (Z.eqb_spec (type feedback) 2); [done|].
      injection Hrun as <- _. done.
Qed.

(** X11.  Whatever the state, a feedback leaves the CID, the compressor
    and [go_back_ir_count] alone; the mode it leaves is the old one or one
    of 1, 2 and 3; the state it leaves is the old one or IR; a context
    whose mode and state are left as they were is not changed at all;
    and a feedback that is not a FEEDBACK-2 changes neither the context
    nor the octets of the feedback. *)
Theorem feedback_frame context feedback context' (data' : list Z) :
  c_uncompressed_feedback crc_calculate context feedback
    = Some (context', data') →
  cid context' = cid context
  ∧ compressor context' = compressor context
  ∧ go_back_ir_count (specific context')
    = go_back_ir_count (specific context)
  ∧ (mode context' = mode context ∨ 1 ≤ mode context' ≤ 3)
  ∧ (state context' = state context ∨ state context' = IR)
  ∧ (mode context' = mode context → state context' = state context →
     context' = context)
  ∧ (type feedback ≠ 2 → context' = context ∧ data' = data feedback).
Proof.
  intros Hrun.
  destruct (decide (type feedback = 2)) as [Htype|Htype].
  - destruct (deliver_feedback2_Some _ _ _ _ Htype Hrun)
      as (b & crc & used & _ & _ & Hcases).
    assert (0 ≤ Z.land (Z.shiftr b 4) 3 < 4) as Hbits.
    { change 3 with (Z.ones 2). rewrite Z.land_ones by lia.
      apply Z.mod_pos_bound. lia. }
    assert (∃ c1, (c1 = context
                   ∨ Z.land (Z.shiftr b 4) 3 ≠ 0
                     ∧ c1 = uncompressed_change_mode context
                              (Z.land (Z.shiftr b 4) 3))
                  ∧ (context' = c1
                     ∨ context' = uncompressed_change_state c1 IR))
      as (c1 & Hc1 & Hc').
    { destruct Hcases as [(_ & _ & ->)|(_ & c1 & Hc1 & ->)];
        [exists context; auto|].
      exists c1. split; [destruct Hc1 as [(? & _ & ->)|(_ & ->)]; auto|].
      destruct (acktype feedback); auto. }
    clear Hcases Hrun. revert Hbits Hc1.
    generalize (Z.land (Z.shiftr b 4) 3). intros m Hbits Hc1.
    destruct context as [? ? st md []]. simpl in *.
    unfold uncompressed_change_mode, uncompressed_change_state in *.
    destruct Hc1 as [->|(Hm & ->)]; destruct Hc' as [->| ->];
      destruct st; state_cases; split_and!;
      try done; try lia; try tauto; try (intros; congruence).
  - unfold c_uncompressed_feedback in Hrun.
    assert (context' = context ∧ data' = data feedback) as [-> ->].
    { destruct (type feedback =? 1); [by injection Hrun as <- <-|].
      destruct (Z.eqb_spec (type feedback) 2); [done|].
      by injection Hrun as <- <-. }
    split_and!; auto.
Qed.

(** *** Packets and bounds *)

(** X12.  Given what [code_cid_values] returned, the Normal packet is
    built exactly when the IP packet is not empty and the position of the
    first octet lies inside the buffer.  Its first octet is then the
    first octet of the IP packet, every other octet is as
    [code_cid_values] left it, the length returned is the position
    returned by [code_cid_values] and the payload starts at offset 1. *)
Theorem uncompressed_normal_packet_layout context (ip dest : list Z)
    dest_size counter first_position (d0 : list Z) :
  code_cid_values (medium_cid_type (compressor context)) (cid context)
    dest dest_size = Some (counter, first_position, d0) →
  (is_Some (uncompressed_code_normal_packet code_cid_values context ip
              dest dest_size)
   ↔ ip ≠ [] ∧ 0 ≤ first_position < Z.of_nat (length d0))
  ∧ ∀ n dest' payload_offset,
      uncompressed_code_normal_packet code_cid_values context ip dest
        dest_size = Some (n, dest', payload_offset) →
      n = counter
      ∧ payload_offset = 1
      ∧ length dest' = length d0
      ∧ load dest' first_position = head ip
      ∧ ∀ j, j ≠ first_position → load dest' j = load d0 j.
Proof.
  intros Hcid. unfold uncompressed_code_normal_packet. rewrite Hcid.
  simpl. assert (load ip 0 = head ip) as -> by (by destruct ip).
  split.
  - destruct ip as [|b ip]; simpl.
    { split; [intros [? [=]]|intros [? _]; done]. }
    split.
    + intros [x Hx].
      destruct (store d0 first_position b) as [d1|] eqn:H1; [|done].
      apply store_Some_inv in H1 as [? _]. done.
    + intros [_ Hin]. rewrite store_in_range by done. done.
  - intros n dest' payload_offset.
    destruct ip as [|b ip]; simpl; [done|].
    destruct (store d0 first_position b) as [d1|] eqn:H1; [|done].
    simpl. intros [= <- <- <-].
    split_and!; try done.
    + by eapply store_length.
    + by eapply load_store_eq.
    + intros j Hj. eapply load_store_ne; [done|]. congruence.
Qed.

(** X13.  Given what [code_cid_values] returned, the IR packet is built
    exactly when the three positions it writes lie inside the buffer:
    [dest_size] is handed to [code_cid_values] and not looked at again. *)
Theorem uncompressed_ir_packet_bounds context (ip dest : list Z)
    dest_size counter first_position (d0 : list Z) :
  code_cid_values (medium_cid_type (compressor context)) (cid context)
    dest dest_size = Some (counter, first_position, d0) →
  is_Some (uncompressed_code_IR_packet crc_calculate code_cid_values
             context ip dest dest_size)
  ↔ 0 ≤ first_position < Z.of_nat (length d0)
    ∧ 0 ≤ counter ∧ counter + 1 < Z.of_nat (length d0).
Proof.
  intros Hcid. split.
  - intros [[[n dest'] off] Hrun].
    unfold uncompressed_code_IR_packet in Hrun. rewrite Hcid in Hrun.
    simpl in Hrun.
    destruct (store d0 first_position 252) as [d1|] eqn:H1; [|done].
    simpl in Hrun.
    destruct (store d1 counter _) as [d2|] eqn:H2; [|done]. simpl in Hrun.
    destruct (store d2 (counter + 1) 0) as [d3|] eqn:H3; [|done].
    pose proof (store_length _ _ _ _ H1).
    pose proof (store_length _ _ _ _ H2).
    apply store_Some_inv in H1 as [? _].
    apply store_Some_inv in H2 as [? _].
    apply store_Some_inv in H3 as [? _]. lia.
  - intros (? & ? & ?).
    by eapply uncompressed_code_IR_packet_returns.
Qed.

(** X14.  A context in a state that is neither IR nor FO, for which no
    periodic refresh is due, cannot be encoded: the call returns -1 with
    the packet type unknown and leaves the context, the buffer and the
    payload offset as they were. *)
Theorem encode_unknown_state context ip packet_size dest dest_size
    payload_offset :
  state context = SO →
  ¬ (mode context = U_MODE
     ∧ periodic_refreshes_ir_timeout (compressor context)
       ≤ go_back_ir_count (specific context)) →
  c_uncompressed_encode MAX_IR_COUNT U_MODE crc_calculate code_cid_values
    context ip packet_size dest dest_size payload_offset
  = Some (mk_encode_result context dest PACKET_UNKNOWN payload_offset (-1)).
Proof.
  intros Hstate Hnot.
  assert (decide_state context = context) as Hdec.
  { destruct context as [? ? st ? []]. simpl in *. subst st.
    unfold uncompressed_decide_state, uncompressed_periodic_down_transition,
      uncompressed_change_state.
    state_cases. }
  unfold c_uncompressed_encode, uncompressed_code_packet.
  rewrite Hdec, Hstate. done.
Qed.

(** The option loop stays inside a buffer that holds the options, unless
    the last octet of the buffer is the header of a CRC option. *)
Lemma feedback_options_in_bounds fuel :
  ∀ (data : list Z) p remaining crc used,
    0 ≤ p →
    p + remaining ≤ Z.of_nat (length data) →
    (Z.to_nat remaining ≤ fuel)%nat →
    (∀ b, load data (Z.of_nat (length data) - 1) = Some b →
          Z.shiftr b 4 ≠ 1) →
    is_Some (feedback_options fuel data p remaining crc used).
Proof.
  induction fuel as [|fuel IH];
    intros data p remaining crc used Hp Hin Hfuel Hlast.
  { rewrite feedback_options_done by lia. done. }
  simpl. destruct (Z.leb_spec remaining 0) as [Hr|Hr]; [done|].
  destruct (load_in_range data p) as [b Hb]; [lia|]. rewrite Hb. simpl.
  assert (0 ≤ Z.land b 15) as Hlen.
  { apply Z.land_nonneg. by right. }
  destruct (Z.eqb_spec (Z.shiftr b 4) 1) as [Hopt|Hopt].
  - assert (p + 1 < Z.of_nat (length data)) as Hnext.
    { destruct (decide (p = Z.of_nat (length data) - 1)) as [->|?]; [|lia].
      by destruct (Hlast _ Hb). }
    destruct (load_in_range data (p + 1)) as [v Hv]; [lia|].
    rewrite Hv. simpl.
    destruct (store data (p + 1) 0) as [d|] eqn:Hd;
      [|by rewrite store_in_range in Hd by lia].
    simpl. pose proof (store_length _ _ _ _ Hd) as Hdl.
    apply IH; [lia|lia|lia|].
    rewrite Hdl. intros b'.
    destruct (decide (p + 1 = Z.of_nat (length data) - 1)) as [<-|Hne].
    + rewrite (load_store_eq _ _ _ _ Hd). by intros [= <-].
    + rewrite (load_store_ne _ _ _ _ _ Hd) by done. apply Hlast.
  - apply IH; done || lia.
Qed.

(** X15.  The feedback handler stays inside the feedback packet, and so
    returns, whenever the profile-specific part starts inside the packet
    and ends inside it or at its end, and the last octet of the packet is
    not the header of a CRC option. *)
Theorem feedback_stays_in_bounds context feedback :
  0 ≤ specific_offset feedback < Z.of_nat (length (data feedback)) →
  specific_offset feedback + specific_size feedback
    ≤ Z.of_nat (length (data feedback)) →
  (∀ b, load (data feedback) (Z.of_nat (length (data feedback)) - 1)
        = Some b → Z.shiftr b 4 ≠ 1) →
  is_Some (c_uncompressed_feedback crc_calculate context feedback).
Proof.
  intros Hoff Hsize Hlast. unfold c_uncompressed_feedback.
  destruct (type feedback =? 1); [done|].
  destruct (type feedback =? 2); [|done].
  destruct (load_in_range (data feedback) (specific_offset feedback))
    as [b ->]; [done|]. simpl.
  destruct (feedback_options_in_bounds
              (Z.to_nat (specific_size feedback - 2)) (data feedback)
              (specific_offset feedback + 2) (specific_size feedback - 2)
              0 false) as [[[d crc] used] ->]; [lia|lia|lia|done|].
  simpl. by destruct (_ && _).
Qed.

(** X16.  A FEEDBACK-2 whose options end with the header of a CRC option
    as the very last octet of the feedback packet, the value octet
    missing, makes the handler reach for the octet after the packet: the
    handler checks [remaining] against one octet only. *)
Theorem feedback_truncated_crc_option context feedback b0 b :
  type feedback = 2 →
  0 ≤ specific_offset feedback →
  specific_size feedback = 3 →
  specific_offset feedback + 3 = Z.of_nat (length (data feedback)) →
  load (data feedback) (specific_offset feedback) = Some b0 →
  load (data feedback) (specific_offset feedback + 2) = Some b →
  Z.shiftr b 4 = 1 →
  c_uncompressed_feedback crc_calculate context feedback = None
  ∧ load (data feedback) (specific_offset feedback + 3) = None.
Proof.
  intros Htype Hoff Hsize Hlen Hb0 Hb Hopt.
  assert (load (data feedback) (specific_offset feedback + 3) = None)
    as Hout.
  { unfold load. rewrite decide_True by lia.
    apply lookup_ge_None. lia. }
  split; [|done].
  unfold c_uncompressed_feedback. rewrite Htype, Hb0, Hsize. simpl.
  rewrite Hb. simpl. rewrite Hopt. simpl.
  replace (specific_offset feedback + 2 + 1)
    with (specific_offset feedback + 3) by lia.
  by rewrite Hout.
Qed.

(** A run, one call at a time. *)
Lemma encode_run_step context ip packet_size dest dest_size payload_offset
    r t types context' :
  encode context ip packet_size dest dest_size payload_offset = Some r →
  packet_type_out r = t →
  run (ctxt_out r) types context' →
  run context (t :: types) context'.
Proof. intros Hr <- Hrun. by econstructor. Qed.

End Facts.

(** *** The code at concrete inputs

    The macros take the values the library gives them ([MAX_IR_COUNT] is
    3 and [U_MODE] is 1); the CRC-8 and [code_cid_values] are the models
    above. *)

Lemma feedback2_mode_change_needs_valid_crc_witness :
  c_uncompressed_feedback crc8 (uncomp_ctxt_with ROHC_SMALL_CID 0 FO 1 0 5)
    (mk_c_feedback 2 [0x60; 0x05; 0x41; 0x07; 0x11; 230] 0 6 NACK)
  = Some (uncomp_ctxt_with ROHC_SMALL_CID 0 IR 2 0 5,
          [0x60; 0x05; 0x41; 0x07; 0x11; 0])
  ∧ feedback2_crc_options
      (mk_c_feedback 2 [0x60; 0x05; 0x41; 0x07; 0x11; 230] 0 6 NACK) = [4]
  ∧ (mode (uncomp_ctxt_with ROHC_SMALL_CID 0 IR 2 0 5) = 2
     ↔ feedback2_crc_options
         (mk_c_feedback 2 [0x60; 0x05; 0x41; 0x07; 0x11; 230] 0 6 NACK)
       ≠ []
       ∧ 230 = crc8 [0x60; 0x05; 0x41; 0x07; 0x11; 0]).
Proof.
  split; [reflexivity|]. split; [reflexivity|].
  destruct (feedback2_mode_change_needs_valid_crc crc8
              (uncomp_ctxt_with ROHC_SMALL_CID 0 FO 1 0 5)
              (mk_c_feedback 2 [0x60; 0x05; 0x41; 0x07; 0x11; 230] 0 6 NACK)
              (uncomp_ctxt_with ROHC_SMALL_CID 0 IR 2 0 5)
              [0x60; 0x05; 0x41; 0x07; 0x11; 0] eq_refl eq_refl)
    as (b & crc & used & Hb & Hopts & _ & _ & _ & _ & _ & Hiff & _).
  vm_compute in Hb. vm_compute in Hopts.
  injection Hb as <-. injection Hopts as <- <-.
  apply Hiff; vm_compute; discriminate.
Defined.

(** C6, counterexample.  The context is in the IR state; a NACK protected
    by a valid CRC option and asking for no mode change is delivered.  The
    handler accepts it and leaves the state IR, not FO. *)
Lemma feedback2_nack_does_not_set_fo :
  c_uncompressed_feedback crc8 (uncomp_ctxt_with ROHC_SMALL_CID 0 IR 1 1 0)
    (mk_c_feedback 2 [0x40; 0x05; 0x11; 213] 0 4 NACK)
  = Some (uncomp_ctxt_with ROHC_SMALL_CID 0 IR 1 1 0, [0x40; 0x05; 0x11; 0])
  ∧ crc8 [0x40; 0x05; 0x11; 0] = 213
  ∧ state (uncomp_ctxt_with ROHC_SMALL_CID 0 IR 1 1 0) ≠ FO.
Proof. split_and!; [reflexivity | reflexivity | discriminate]. Qed.

Lemma feedback2_nack_keeps_state_witness :
  c_uncompressed_feedback crc8 (uncomp_ctxt_with ROHC_SMALL_CID 0 FO 1 0 5)
    (mk_c_feedback 2 [0x60; 0x05; 0x11; 207] 0 4 NACK)
  = Some (uncomp_ctxt_with ROHC_SMALL_CID 0 IR 2 0 5, [0x60; 0x05; 0x11; 0])
  ∧ state (uncomp_ctxt_with ROHC_SMALL_CID 0 IR 2 0 5) = IR.
Proof.
  split; [reflexivity|].
  destruct (feedback2_nack_keeps_state crc8
              (uncomp_ctxt_with ROHC_SMALL_CID 0 FO 1 0 5)
              (mk_c_feedback 2 [0x60; 0x05; 0x11; 207] 0 4 NACK)
              (uncomp_ctxt_with ROHC_SMALL_CID 0 IR 2 0 5)
              [0x60; 0x05; 0x11; 0] eq_refl eq_refl eq_refl)
    as (_ & Hir & _).
  apply Hir. discriminate.
Defined.

(** C7, counterexample.  Three IR packets have been sent and the context
    is still in the IR state; a STATIC-NACK protected by a valid CRC
    option is delivered.  The handler accepts it, the state is IR and the
    counters are not reset; the next encode call moves to FO and emits a
    Normal packet. *)
Lemma feedback2_static_nack_then_normal_packet :
  c_uncompressed_feedback crc8 (uncomp_ctxt_with ROHC_SMALL_CID 0 IR 1 3 0)
    (mk_c_feedback 2 [0x80; 0x05; 0x11; 137] 0 4 STATIC_NACK)
  = Some (uncomp_ctxt_with ROHC_SMALL_CID 0 IR 1 3 0, [0x80; 0x05; 0x11; 0])
  ∧ crc8 [0x80; 0x05; 0x11; 0] = 137
  ∧ c_uncompressed_encode 3 1 crc8 code_cid_values
      (uncomp_ctxt_with ROHC_SMALL_CID 0 IR 1 3 0) [0x45; 0x00] 2
      [0; 0; 0; 0] 4 0
    = Some (mk_encode_result
              (mk_c_context 0 (mk_rohc_comp ROHC_SMALL_CID 1700) FO 1
                 (mk_sc_uncompressed_context 0 1 1))
              [0x45; 0; 0; 0] PACKET_NORMAL 1 1).
Proof. split_and!; reflexivity. Qed.

Lemma feedback2_static_nack_forces_ir_witness :
  c_uncompressed_feedback crc8 (uncomp_ctxt_with ROHC_SMALL_CID 0 FO 1 0 7)
    (mk_c_feedback 2 [0x80; 0x05; 0x11; 137] 0 4 STATIC_NACK)
  = Some (uncomp_ctxt_with ROHC_SMALL_CID 0 IR 1 0 7, [0x80; 0x05; 0x11; 0])
  ∧ packet_type_out
      (mk_encode_result
         (mk_c_context 0 (mk_rohc_comp ROHC_SMALL_CID 1700) IR 1
            (mk_sc_uncompressed_context 1 0 7))
         [0xfc; 0x00; 177; 0] PACKET_IR 0 3) = PACKET_IR.
Proof.
  split; [reflexivity|].
  destruct (feedback2_static_nack_forces_ir 3 1 crc8 code_cid_values
              (uncomp_ctxt_with ROHC_SMALL_CID 0 FO 1 0 7)
              (mk_c_feedback 2 [0x80; 0x05; 0x11; 137] 0 4 STATIC_NACK)
              (uncomp_ctxt_with ROHC_SMALL_CID 0 IR 1 0 7)
              [0x80; 0x05; 0x11; 0] 137 true
              eq_refl eq_refl eq_refl (or_intror eq_refl) eq_refl)
    as [_ Hnext].
  apply (Hnext ltac:(lia) ltac:(left; discriminate)
           [0x45; 0x00] 2 [0; 0; 0; 0] 4 0).
  reflexivity.
Defined.

(** C8, counterexample.  With large CIDs and the CID 5 the IR packet
    starts with 0xFC and the CID octet follows it: no octets, whatever
    they are, precede a discriminator that is followed by the profile
    octet. *)
Lemma uncompressed_ir_packet_large_cid :
  uncompressed_code_IR_packet crc8 code_cid_values
    (uncomp_ctxt_with ROHC_LARGE_CID 5 IR 1 0 0) [0x45; 0x00]
    [0; 0; 0; 0; 0; 0] 6
  = Some (4, [0xfc; 0x05; 0x00; 71; 0; 0], 0)
  ∧ ¬ ∃ cid_octets crc,
        take 4 [0xfc; 0x05; 0x00; 71; 0; 0]
        = cid_octets ++ [0xfc; 0x00; crc].
Proof.
  split; [reflexivity|].
  intros (cid_octets & crc & Heq).
  destruct cid_octets as [|a [|b [|c [|d l]]]]; simpl in Heq;
    try discriminate.
  injection Heq as _ _ _ _ Hl. by destruct l.
Qed.

Lemma uncompressed_ir_packet_layout_witness :
  uncompressed_code_IR_packet crc8 code_cid_values
    (uncomp_ctxt_with ROHC_SMALL_CID 5 IR 1 0 0) [0x45; 0x00]
    [0; 0; 0; 0; 0; 0] 6
  = Some (4, [0xe5; 0xfc; 0x00; 87; 0; 0], 0)
  ∧ load [0xe5; 0xfc; 0x00; 87; 0; 0] 1 = Some 0xfc
  ∧ load [0xe5; 0xfc; 0x00; 87; 0; 0] 3
    = Some (crc8 [0xe5; 0xfc; 0x00; 0] mod 256).
Proof.
  split; [reflexivity|].
  destruct (uncompressed_ir_packet_layout crc8 code_cid_values
              (uncomp_ctxt_with ROHC_SMALL_CID 5 IR 1 0 0) [0x45; 0x00]
              [0; 0; 0; 0; 0; 0] 6 2 1 [0xe5; 0; 0; 0; 0; 0]
              4 [0xe5; 0xfc; 0x00; 87; 0; 0] 0
              eq_refl ltac:(lia) eq_refl)
    as (_ & _ & _ & Hfc & _ & Hcrc & _).
  split; [exact Hfc | exact Hcrc].
Defined.

Lemma feedback2_crc_option_zeroed_witness :
  c_uncompressed_feedback crc8 (uncomp_ctxt_with ROHC_SMALL_CID 0 FO 1 0 7)
    (mk_c_feedback 2 [0x80; 0x05; 0x41; 0x07; 0x11; 29] 0 6 STATIC_NACK)
  = Some (uncomp_ctxt_with ROHC_SMALL_CID 0 IR 1 0 7,
          [0x80; 0x05; 0x41; 0x07; 0x11; 0])
  ∧ feedback2_crc_options
      (mk_c_feedback 2 [0x80; 0x05; 0x41; 0x07; 0x11; 29] 0 6 STATIC_NACK)
    = [4]
  ∧ load [0x80; 0x05; 0x41; 0x07; 0x11; 0] (4 + 1) = Some 0
  ∧ [0x80; 0x05; 0x41; 0x07; 0x11; 0] ≠ [0x80; 0x05; 0x41; 0x07; 0x11; 29].
Proof.
  split; [reflexivity|]. split; [reflexivity|].
  destruct (feedback2_crc_option_zeroed crc8
              (uncomp_ctxt_with ROHC_SMALL_CID 0 FO 1 0 7)
              (mk_c_feedback 2 [0x80; 0x05; 0x41; 0x07; 0x11; 29] 0 6
                 STATIC_NACK)
              (uncomp_ctxt_with ROHC_SMALL_CID 0 IR 1 0 7)
              [0x80; 0x05; 0x41; 0x07; 0x11; 0] eq_refl eq_refl)
    as (crc & used & _ & _ & _ & _ & _ & _ & _ & _ & Hwf).
  destruct Hwf as (_ & Hzeros & Hdiff).
  { vm_compute. constructor; [reflexivity|constructor]. }
  assert (4 ∈ feedback2_crc_options
                (mk_c_feedback 2 [0x80; 0x05; 0x41; 0x07; 0x11; 29] 0 6
                   STATIC_NACK)) as Hin.
  { change (4 ∈ [4]). by apply list_elem_of_singleton. }
  split; [exact (Hzeros 4 Hin)|].
  apply (Hdiff 4 29 Hin); [reflexivity|discriminate].
Defined.


(** *** Runs and handlers at concrete inputs *)

(** Two packets from a fresh context, with [MAX_IR_COUNT] = 3. *)
Lemma run_two_ir_packets :
  encode_run 3 1 crc8 code_cid_values
    (uncomp_ctxt_with ROHC_SMALL_CID 0 IR 1 0 0) [PACKET_IR; PACKET_IR]
    (uncomp_ctxt_with ROHC_SMALL_CID 0 IR 1 2 0).
Proof.
  eapply (encode_run_step _ _ _ _ _ [0x45; 0x00] 2 [0; 0; 0; 0] 4 0);
    [reflexivity | reflexivity |].
  eapply (encode_run_step _ _ _ _ _ [0x45; 0x00] 2 [0; 0; 0; 0] 4 0);
    [reflexivity | reflexivity |].
  apply encode_run_nil.
Qed.

Lemma encode_run_ir_phase_witness :
  [PACKET_IR; PACKET_IR] = replicate 2 PACKET_IR
  ∧ state (uncomp_ctxt_with ROHC_SMALL_CID 0 IR 1 2 0) = IR
  ∧ ir_count (specific (uncomp_ctxt_with ROHC_SMALL_CID 0 IR 1 2 0))
    = 0 + 2.
Proof.
  destruct (encode_run_ir_phase 3 1 crc8 code_cid_values
              (uncomp_ctxt_with ROHC_SMALL_CID 0 IR 1 0 0)
              [PACKET_IR; PACKET_IR]
              (uncomp_ctxt_with ROHC_SMALL_CID 0 IR 1 2 0)
              run_two_ir_packets eq_refl ltac:(simpl; lia)
              ltac:(simpl; lia) ltac:(lia))
    as (Ht & Hs & _ & _ & Hi & _).
  split_and!; [exact Ht | exact Hs | exact Hi].
Defined.

(** Two packets in the FO state. *)
Lemma run_two_normal_packets (mode : Z) :
  encode_run 3 1 crc8 code_cid_values
    (mk_c_context 0 (mk_rohc_comp ROHC_SMALL_CID 1700) FO mode
       (mk_sc_uncompressed_context 0 0 5))
    [PACKET_NORMAL; PACKET_NORMAL]
    (mk_c_context 0 (mk_rohc_comp ROHC_SMALL_CID 1700) FO mode
       (mk_sc_uncompressed_context 0 2
          (if decide (mode = 1) then 7 else 5))).
Proof.
  destruct (decide (mode = 1)) as [->|Hmode].
  - eapply (encode_run_step _ _ _ _ _ [0x45; 0x00] 2 [0; 0; 0; 0] 4 0);
      [reflexivity | reflexivity |].
    eapply (encode_run_step _ _ _ _ _ [0x45; 0x00] 2 [0; 0; 0; 0] 4 0);
      [reflexivity | reflexivity |].
    apply encode_run_nil.
  - assert ((mode =? 1) = false) as Hneq by (by apply Z.eqb_neq).
    eapply (encode_run_step _ _ _ _ _ [0x45; 0x00] 2 [0; 0; 0; 0] 4 0);
      [unfold c_uncompressed_encode, uncompressed_decide_state; simpl;
       rewrite Hneq; reflexivity | reflexivity |].
    eapply (encode_run_step _ _ _ _ _ [0x45; 0x00] 2 [0; 0; 0; 0] 4 0);
      [unfold c_uncompressed_encode, uncompressed_decide_state; simpl;
       rewrite Hneq; reflexivity | reflexivity |].
    apply encode_run_nil.
Qed.

Lemma encode_run_fo_phase_witness :
  [PACKET_NORMAL; PACKET_NORMAL] = replicate 2 PACKET_NORMAL
  ∧ go_back_ir_count
      (specific
         (mk_c_context 0 (mk_rohc_comp ROHC_SMALL_CID 1700) FO 1
            (mk_sc_uncompressed_context 0 2 7))) = 5 + 2.
Proof.
  destruct (encode_run_fo_phase 3 1 crc8 code_cid_values _ _ _
              (run_two_normal_packets 1) eq_refl eq_refl
              ltac:(simpl; lia) ltac:(simpl; lia) ltac:(simpl; lia))
    as (Ht & _ & _ & _ & Hg).
  split; [exact Ht | exact Hg].
Defined.

Lemma encode_run_fo_forever_witness :
  [PACKET_NORMAL; PACKET_NORMAL] = replicate 2 PACKET_NORMAL
  ∧ go_back_ir_count
      (specific
         (mk_c_context 0 (mk_rohc_comp ROHC_SMALL_CID 1700) FO 2
            (mk_sc_uncompressed_context 0 2 5))) = 5.
Proof.
  destruct (encode_run_fo_forever 3 1 crc8 code_cid_values _ _ _
              (run_two_normal_packets 2) eq_refl ltac:(simpl; lia))
    as (Ht & _ & _ & _ & Hg).
  split; [exact Ht | exact Hg].
Defined.

(** The first three packets of a context with [MAX_IR_COUNT] = 1 and a
    refresh timeout of 1. *)
Lemma run_one_cycle :
  encode_run 1 1 crc8 code_cid_values
    (mk_c_context 0 (mk_rohc_comp ROHC_SMALL_CID 1) IR 1
       (mk_sc_uncompressed_context 0 0 0))
    [PACKET_IR; PACKET_NORMAL; PACKET_IR]
    (mk_c_context 0 (mk_rohc_comp ROHC_SMALL_CID 1) IR 1
       (mk_sc_uncompressed_context 1 0 0)).
Proof.
  eapply (encode_run_step _ _ _ _ _ [0x45; 0x00] 2 [0; 0; 0; 0] 4 0);
    [reflexivity | reflexivity |].
  eapply (encode_run_step _ _ _ _ _ [0x45; 0x00] 2 [0; 0; 0; 0] 4 0);
    [reflexivity | reflexivity |].
  eapply (encode_run_step _ _ _ _ _ [0x45; 0x00] 2 [0; 0; 0; 0] 4 0);
    [reflexivity | reflexivity |].
  apply encode_run_nil.
Qed.

Lemma uncompressed_state_machine_witness :
  [PACKET_IR; PACKET_NORMAL; PACKET_IR]
  = replicate 1 PACKET_IR ++ replicate 1 PACKET_NORMAL ++ [PACKET_IR]
  ∧ state
      (mk_c_context 0 (mk_rohc_comp ROHC_SMALL_CID 1) IR 1
         (mk_sc_uncompressed_context 1 0 0)) = IR
  ∧ ir_count
      (specific
         (mk_c_context 0 (mk_rohc_comp ROHC_SMALL_CID 1) IR 1
            (mk_sc_uncompressed_context 1 0 0))) = 1.
Proof.
  destruct (uncompressed_state_machine 1 1 crc8 code_cid_values
              (mk_c_context 0 (mk_rohc_comp ROHC_SMALL_CID 1) IR 1
                 (mk_sc_uncompressed_context 0 0 0)))
    as (_ & _ & _ & _ & _ & _ & _ & _ & _ & _ & _ & Hcycle).
  destruct (Hcycle [PACKET_IR; PACKET_NORMAL; PACKET_IR]
              (mk_c_context 0 (mk_rohc_comp ROHC_SMALL_CID 1) IR 1
                 (mk_sc_uncompressed_context 1 0 0))
              run_one_cycle eq_refl eq_refl ltac:(simpl; lia) ltac:(lia)
              eq_refl ltac:(simpl; lia) eq_refl)
    as (Ht & Hs & _ & Hi & _).
  split_and!; [exact Ht | exact Hs | exact Hi].
Defined.

Lemma encode_run_refresh_cycle_witness :
  [PACKET_IR; PACKET_NORMAL; PACKET_IR]
  = replicate 1 PACKET_IR ++ replicate 1 PACKET_NORMAL ++ [PACKET_IR].
Proof.
  apply (encode_run_refresh_cycle 1 1 crc8 code_cid_values true
           (mk_c_context 0 (mk_rohc_comp ROHC_SMALL_CID 1) IR 1
              (mk_sc_uncompressed_context 7 7 7)) [0x45; 0x00]
           (mk_c_context 0 (mk_rohc_comp ROHC_SMALL_CID 1) IR 1
              (mk_sc_uncompressed_context 0 0 0))
           [PACKET_IR; PACKET_NORMAL; PACKET_IR]
           (mk_c_context 0 (mk_rohc_comp ROHC_SMALL_CID 1) IR 1
              (mk_sc_uncompressed_context 1 0 0))
           eq_refl eq_refl eq_refl ltac:(lia) ltac:(simpl; lia)
           run_one_cycle eq_refl).
Defined.

Lemma counters_stay_bounded_witness :
  0 ≤ ir_count
        (specific
           (mk_c_context 0 (mk_rohc_comp ROHC_SMALL_CID 1700) IR 1
              (mk_sc_uncompressed_context 1 0 0))) ≤ 3.
Proof.
  destruct (counters_stay_bounded 3 1 crc8 code_cid_values
              (uncomp_ctxt_with ROHC_SMALL_CID 0 IR 1 0 0)
              ltac:(lia) ltac:(simpl; lia) ltac:(simpl; lia)
              ltac:(simpl; lia)) as [Henc _].
  destruct (Henc [0x45; 0x00] 2 [0; 0; 0; 0] 4 0
              (mk_encode_result
                 (mk_c_context 0 (mk_rohc_comp ROHC_SMALL_CID 1700) IR 1
                    (mk_sc_uncompressed_context 1 0 0))
                 [0xfc; 0x00; 177; 0] PACKET_IR 0 3) eq_refl)
    as (_ & Hir & _).
  exact Hir.
Defined.

Lemma feedback_frame_witness :
  go_back_ir_count (specific (uncomp_ctxt_with ROHC_SMALL_CID 0 IR 2 0 5))
  = go_back_ir_count (specific (uncomp_ctxt_with ROHC_SMALL_CID 0 FO 1 0 5))
  ∧ (mode (uncomp_ctxt_with ROHC_SMALL_CID 0 IR 2 0 5)
     = mode (uncomp_ctxt_with ROHC_SMALL_CID 0 FO 1 0 5)
     ∨ 1 ≤ mode (uncomp_ctxt_with ROHC_SMALL_CID 0 IR 2 0 5) ≤ 3).
Proof.
  destruct (feedback_frame crc8
              (uncomp_ctxt_with ROHC_SMALL_CID 0 FO 1 0 5)
              (mk_c_feedback 2 [0x60; 0x05; 0x11; 207] 0 4 NACK)
              (uncomp_ctxt_with ROHC_SMALL_CID 0 IR 2 0 5)
              [0x60; 0x05; 0x11; 0] eq_refl)
    as (_ & _ & Hg & Hm & _).
  split; [exact Hg | exact Hm].
Defined.

Lemma uncompressed_normal_packet_layout_witness :
  uncompressed_code_normal_packet code_cid_values
    (uncomp_ctxt_with ROHC_SMALL_CID 5 FO 1 0 0) [0x45; 0x00]
    [0; 0; 0; 0] 4 = Some (2, [0xe5; 0x45; 0; 0], 1)
  ∧ load [0xe5; 0x45; 0; 0] 1 = head [0x45; 0x00].
Proof.
  split; [reflexivity|].
  destruct (uncompressed_normal_packet_layout code_cid_values
              (uncomp_ctxt_with ROHC_SMALL_CID 5 FO 1 0 0) [0x45; 0x00]
              [0; 0; 0; 0] 4 2 1 [0xe5; 0; 0; 0] eq_refl) as [_ Hlayout].
  destruct (Hlayout 2 [0xe5; 0x45; 0; 0] 1 eq_refl)
    as (_ & _ & _ & Hfirst & _).
  exact Hfirst.
Defined.

Lemma uncompressed_ir_packet_bounds_witness :
  is_Some (uncompressed_code_IR_packet crc8 code_cid_values
             (uncomp_ctxt_with ROHC_SMALL_CID 5 IR 1 0 0) [0x45; 0x00]
             [0; 0; 0; 0] 4)
  ∧ ¬ is_Some (uncompressed_code_IR_packet crc8 code_cid_values
                 (uncomp_ctxt_with ROHC_SMALL_CID 5 IR 1 0 0) [0x45; 0x00]
                 [0; 0; 0] 3).
Proof.
  split.
  - apply (uncompressed_ir_packet_bounds crc8 code_cid_values
             (uncomp_ctxt_with ROHC_SMALL_CID 5 IR 1 0 0) [0x45; 0x00]
             [0; 0; 0; 0] 4 2 1 [0xe5; 0; 0; 0] eq_refl).
    simpl. lia.
  - intros Hsome.
    apply (uncompressed_ir_packet_bounds crc8 code_cid_values
             (uncomp_ctxt_with ROHC_SMALL_CID 5 IR 1 0 0) [0x45; 0x00]
             [0; 0; 0] 3 2 1 [0xe5; 0; 0] eq_refl) in Hsome.
    simpl in Hsome. lia.
Defined.

Lemma encode_unknown_state_witness :
  c_uncompressed_encode 3 1 crc8 code_cid_values
    (uncomp_ctxt_with ROHC_SMALL_CID 0 SO 1 0 0) [0x45; 0x00] 2
    [0; 0; 0; 0] 4 9
  = Some (mk_encode_result (uncomp_ctxt_with ROHC_SMALL_CID 0 SO 1 0 0)
            [0; 0; 0; 0] PACKET_UNKNOWN 9 (-1)).
Proof.
  apply (encode_unknown_state 3 1 crc8 code_cid_values
           (uncomp_ctxt_with ROHC_SMALL_CID 0 SO 1 0 0)).
  - reflexivity.
  - simpl. lia.
Defined.

Lemma feedback_stays_in_bounds_witness :
  is_Some (c_uncompressed_feedback crc8
             (uncomp_ctxt_with ROHC_SMALL_CID 0 FO 1 0 7)
             (mk_c_feedback 2 [0x80; 0x05; 0x11; 137] 0 4 STATIC_NACK)).
Proof.
  apply (feedback_stays_in_bounds crc8).
  - simpl. lia.
  - simpl. lia.
  - intros b. vm_compute. intros [= <-]. vm_compute. discriminate.
Defined.

Lemma feedback_truncated_crc_option_witness :
  c_uncompressed_feedback crc8
    (uncomp_ctxt_with ROHC_SMALL_CID 0 FO 1 0 7)
    (mk_c_feedback 2 [0x80; 0x05; 0x11] 0 3 STATIC_NACK) = None
  ∧ load [0x80; 0x05; 0x11] (0 + 3) = None.
Proof.
  apply (feedback_truncated_crc_option crc8
           (uncomp_ctxt_with ROHC_SMALL_CID 0 FO 1 0 7)
           (mk_c_feedback 2 [0x80; 0x05; 0x11] 0 3 STATIC_NACK)
           0x80 0x11); reflexivity || (simpl; lia).
Defined.

End UncompressedFacts.
